(** * dexlite-core: price adapter, observation store, fetch and retention
      cycles, and the 24-hour query handler.

    A shallow embedding of the Go sources
    - [services] (the HyperLiquid client, [GetPrice]),
    - [models/coin_price.go] ([CoinPrice]),
    - [workers] ([fetchPrices], [cleanup]),
    - [handlers/price_handler.go] ([GetPriceComparison]),
    followed by the properties stated about them.

    Conventions of the embedding.
    - Go [string]s are byte strings ([string] of Rocq).  [strings.ToUpper]
      and the case folding of [encoding/json] are modelled on ASCII
      letters; other bytes are left as they are.
    - A response body is carried with its JSON syntax tree: [json.Unmarshal]
      is modelled on the tree, by target type, following [encoding/json]
      (type mismatch in a known field is an error, unknown fields are
      skipped, field names match exactly or up to case, [null] leaves
      scalars and structs alone and resets maps, duplicate members are
      decoded in document order).
    - A Go [map] is a [gmap]; the order in which [range] visits it is not
      fixed by the language and is a parameter ([rangeOrder]) of which only
      "some permutation of the entries" is known.
    - [strconv.ParseFloat] and the [float64] it yields are parameters.
    - Times are integers (nanoseconds); the process runs in UTC, so a
      calendar day is 24 hours.
    - The store is the table [coin_prices] as a list of rows with the
      statements gorm issues against it; a statement can fail. *)

From Stdlib Require Import ZArith Ascii String List Permutation Sorted Lia.
From stdpp Require Import base option list strings gmap fin_maps.

Local Set Warnings "-register-all".

Open Scope string_scope.
Open Scope Z_scope.
Open Scope list_scope.

(** ** Strings *)

Module Strings.

Definition upper (c : ascii) : ascii :=
  let n := nat_of_ascii c in
  if ((97 <=? n)%nat && (n <=? 122)%nat)%bool then ascii_of_nat (n - 32) else c.

(** [strings.ToUpper] *)
Fixpoint ToUpper (s : string) : string :=
  match s with
  | EmptyString => EmptyString
  | String c s' => String (upper c) (ToUpper s')
  end.

(** [strings.EqualFold] *)
Definition EqualFold (a b : string) : bool := String.eqb (ToUpper a) (ToUpper b).

(** [b[:min(n, len(b))]] *)
Definition min (a b : nat) : nat := if (a <? b)%nat then a else b.

Definition head_bytes (n : nat) (s : string) : string :=
  substring 0 (min n (String.length s)) s.

End Strings.

(** ** JSON syntax trees and [json.Unmarshal] *)

Module Json.

(** A number literal keeps what decoding into [int] needs: its value when
    the literal is an integer literal (no fraction, no exponent). *)
Inductive json : Type :=
| JNull
| JBool (b : bool)
| JNumber (int : option Z)
| JString (s : string)
| JArray (items : list json)
| JObject (members : list (string * json)).

(** [None] is a non-nil [error] from [Unmarshal]. *)
Definition decoded (A : Type) : Type := option A.

(** How a struct field is found for a member name: the exact name, or the
    name up to case. *)
Definition fieldMatch (key field : string) : bool :=
  (String.eqb key field || Strings.EqualFold key field)%bool.

(** Target [string]. *)
Definition into_string (v : json) (cur : string) : decoded string :=
  match v with
  | JString s => Some s
  | JNull => Some cur
  | _ => None
  end.

(** Target [int] (64 bits). *)
Definition into_int (v : json) (cur : Z) : decoded Z :=
  match v with
  | JNumber (Some z) =>
      if ((- 2 ^ 63 <=? z) && (z <? 2 ^ 63))%bool then Some z else None
  | JNull => Some cur
  | _ => None
  end.

(** Every element decoded by [f]; the first failure fails the whole. *)
Fixpoint each {A} (f : json -> decoded A) (l : list json) : decoded (list A) :=
  match l with
  | [] => Some []
  | v :: l' =>
      match f v, each f l' with
      | Some a, Some r => Some (a :: r)
      | _, _ => None
      end
  end.

(** Target [[]string].  [null] makes the slice nil. *)
Definition into_strings (v : json) : decoded (list string) :=
  match v with
  | JArray l => each (fun x => into_string x "") l
  | JNull => Some []
  | _ => None
  end.

(** Members of an object decoded one after the other into a target. *)
Definition members {S} (step : S -> string * json -> decoded S)
    (ms : list (string * json)) (cur : S) : decoded S :=
  foldl (fun acc kv => match acc with Some st => step st kv | None => None end)
        (Some cur) ms.

(** Target [map[string]V]: an existing map is reused and keeps its
    entries, a nil map is allocated, every member is decoded into a fresh
    zero element and stored under its name; [null] makes the map nil. *)
Definition into_map {V} (elem : json -> decoded V) (v : json)
    (cur : option (gmap string V)) : decoded (option (gmap string V)) :=
  match v with
  | JNull => Some None
  | JObject ms =>
      Some <$> members (fun m kv =>
                          match elem kv.2 with
                          | Some x => Some (<[kv.1 := x]> m)
                          | None => None
                          end) ms (default ∅ cur)
  | _ => None
  end.

(** Target [map[string]string]. *)
Definition into_string_map := into_map (fun v => into_string v "").

(** Target [map[string]interface{}]: any value is accepted. *)
Definition into_generic := into_map (fun v : json => Some v).

End Json.

(** ** The price source adapter (package [services]) *)

Module Services.
Import Json.

Record UniverseItem := { Name : string; SzDec : Z }.

Record Meta := { Universe : list UniverseItem }.

Record PerpInfo := {
  Funding : string;
  ImpactPxs : list string;
  MarkPx : string;
  MidPx : string;
  OpenInterest : string;
  OraclePx : string;
  Premiums : list string;
  Volume24h : string
}.

(** [AllMidsResponse]; the field of type [Meta] is [Meta_]. *)
Record AllMidsResponse := {
  Mids : option (gmap string string);
  Meta_ : Meta;
  Data : option (gmap string PerpInfo)
}.

(** [WrappedAllMidsResponse], whose field [Data] is an anonymous struct
    with the one field [Mids]. *)
Module W.
Record Inner := { Mids : option (gmap string string) }.
Record WrappedAllMidsResponse := { Data : Inner }.
End W.

Definition zeroUniverseItem : UniverseItem := {| Name := ""; SzDec := 0 |}.
Definition zeroMeta : Meta := {| Universe := [] |}.
Definition zeroPerpInfo : PerpInfo :=
  {| Funding := ""; ImpactPxs := []; MarkPx := ""; MidPx := "";
     OpenInterest := ""; OraclePx := ""; Premiums := []; Volume24h := "" |}.
Definition zeroAllMidsResponse : AllMidsResponse :=
  {| Mids := None; Meta_ := zeroMeta; Data := None |}.
Definition zeroWrapped : W.WrappedAllMidsResponse :=
  {| W.Data := {| W.Mids := None |} |}.

(** Target struct: [null] leaves it as it is. *)
Definition into_struct {S} (member : S -> string * json -> decoded S)
    (v : json) (cur : S) : decoded S :=
  match v with
  | JNull => Some cur
  | JObject ms => members member ms cur
  | _ => None
  end.

Definition UniverseItem_member (u : UniverseItem) (kv : string * json)
    : decoded UniverseItem :=
  let '(k, v) := kv in
  if fieldMatch k "name" then
    s ← into_string v (Name u); Some {| Name := s; SzDec := SzDec u |}
  else if fieldMatch k "szDec" then
    n ← into_int v (SzDec u); Some {| Name := Name u; SzDec := n |}
  else Some u.

Definition into_universe (v : json) : decoded (list UniverseItem) :=
  match v with
  | JArray l => each (fun x => into_struct UniverseItem_member x zeroUniverseItem) l
  | JNull => Some []
  | _ => None
  end.

Definition Meta_member (m : Meta) (kv : string * json) : decoded Meta :=
  let '(k, v) := kv in
  if fieldMatch k "universe" then
    us ← into_universe v; Some {| Universe := us |}
  else Some m.

Definition PerpInfo_member (p : PerpInfo) (kv : string * json) : decoded PerpInfo :=
  let '(k, v) := kv in
  let '(Build_PerpInfo fu im ma mi op or pr vo) := p in
  if fieldMatch k "funding" then
    s ← into_string v fu; Some (Build_PerpInfo s im ma mi op or pr vo)
  else if fieldMatch k "impactPxs" then
    l ← into_strings v; Some (Build_PerpInfo fu l ma mi op or pr vo)
  else if fieldMatch k "markPx" then
    s ← into_string v ma; Some (Build_PerpInfo fu im s mi op or pr vo)
  else if fieldMatch k "midPx" then
    s ← into_string v mi; Some (Build_PerpInfo fu im ma s op or pr vo)
  else if fieldMatch k "openInterest" then
    s ← into_string v op; Some (Build_PerpInfo fu im ma mi s or pr vo)
  else if fieldMatch k "oraclePx" then
    s ← into_string v or; Some (Build_PerpInfo fu im ma mi op s pr vo)
  else if fieldMatch k "premiums" then
    l ← into_strings v; Some (Build_PerpInfo fu im ma mi op or l vo)
  else if fieldMatch k "volume24h" then
    s ← into_string v vo; Some (Build_PerpInfo fu im ma mi op or pr s)
  else Some p.

Definition into_PerpInfo (v : json) : decoded PerpInfo :=
  into_struct PerpInfo_member v zeroPerpInfo.

Definition AllMidsResponse_member (r : AllMidsResponse) (kv : string * json)
    : decoded AllMidsResponse :=
  let '(k, v) := kv in
  if fieldMatch k "mids" then
    m ← into_string_map v (Mids r);
    Some {| Mids := m; Meta_ := Meta_ r; Data := Data r |}
  else if fieldMatch k "meta" then
    m ← into_struct Meta_member v (Meta_ r);
    Some {| Mids := Mids r; Meta_ := m; Data := Data r |}
  else if fieldMatch k "data" then
    d ← into_map into_PerpInfo v (Data r);
    Some {| Mids := Mids r; Meta_ := Meta_ r; Data := d |}
  else Some r.

Definition Inner_member (i : W.Inner) (kv : string * json) : decoded W.Inner :=
  let '(k, v) := kv in
  if fieldMatch k "mids" then
    m ← into_string_map v (W.Mids i); Some {| W.Mids := m |}
  else Some i.

Definition Wrapped_member (w : W.WrappedAllMidsResponse) (kv : string * json)
    : decoded W.WrappedAllMidsResponse :=
  let '(k, v) := kv in
  if fieldMatch k "data" then
    i ← into_struct Inner_member v (W.Data w); Some {| W.Data := i |}
  else Some w.

(** [json.Unmarshal(bodyBytes, &x)] for the four targets of [GetPrice];
    [doc] is [None] when the bytes are not JSON. *)
Definition Unmarshal_directMids (doc : option json) : decoded (option (gmap string string)) :=
  j ← doc; into_string_map j None.

Definition Unmarshal_wrapped (doc : option json) : decoded W.WrappedAllMidsResponse :=
  j ← doc; into_struct Wrapped_member j zeroWrapped.

Definition Unmarshal_response (doc : option json) : decoded AllMidsResponse :=
  j ← doc; into_struct AllMidsResponse_member j zeroAllMidsResponse.

Definition Unmarshal_generic (doc : option json) : decoded (option (gmap string json)) :=
  j ← doc; into_generic j None.

(** What the Go runtime and library decide: the [float64] read from a price
    string, and the order in which a [range] over a map visits it. *)
Class Runtime := {
  float64 : Type;
  ParseFloat : string -> option float64;
  rangeOrder : forall V : Type, list (string * V) -> list (string * V);
  rangeOrder_perm : forall (V : Type) (l : list (string * V)), Permutation (rangeOrder V l) l
}.

Inductive error : Type :=
| ErrRequest                                   (* "failed to make request: %w" *)
| ErrStatus (code : Z) (body : string)         (* "API returned status %d: %s" *)
| ErrReadBody                                  (* "failed to read response body: %w" *)
| ErrParsePrice (coin text : string)           (* "failed to parse price for %s: %w" *)
| ErrNotFound (coin : string) (availableCoins : list string)
    (* "coin %s not found in response. Available coins in response: %v" *)
| ErrNotFoundRaw (coin : string) (head : string).
    (* "coin %s not found. Response (first 500 chars): %s" *)

(** The reply of the upstream to [client.Do]: the status code, the bytes
    [io.ReadAll] delivers, whether it reports an error after them, and the
    JSON syntax tree of the bytes, if they are JSON. *)
Record Response := {
  StatusCode : Z;
  Body : string;
  ReadErr : bool;
  Doc : option json
}.

Inductive RoundTrip : Type :=
| Failed
| Reply (resp : Response).

(** The upstream, as the replies it gives to the requests still to come. *)
Definition Upstream : Type := list RoundTrip.

Definition Do (up : Upstream) : RoundTrip * Upstream :=
  match up with
  | [] => (Failed, [])
  | r :: up' => (r, up')
  end.

Definition StatusOK : Z := 200.

Section GetPrice.
Context {RT : Runtime}.

Inductive result : Type :=
| Ok (price : float64)
| Err (e : error).

(** [for key, v := range m] *)
Definition range {V} (m : gmap string V) : list (string * V) :=
  rangeOrder V (map_to_list m).

(** [getMapKeys] *)
Definition getMapKeys (m : option (gmap string json)) : list string :=
  match m with
  | None => []
  | Some g => (range g).*1
  end.

(** [getAvailableCoins]: the keys of [Mids], then the keys of [Data]. *)
Definition getAvailableCoins (response : AllMidsResponse) : list string :=
  match Mids response with
  | Some mids => (range mids).*1
  | None => []
  end ++
  match Data response with
  | Some data => (range data).*1
  | None => []
  end.

(** [strconv.ParseFloat(priceStr, 64)] and the two returns after it. *)
Definition parsed (coin priceStr : string) : result :=
  match ParseFloat priceStr with
  | Some price => Ok price
  | None => Err (ErrParsePrice coin priceStr)
  end.

(** The block repeated for each candidate mapping: the exact key first,
    then the first key in range order that equals the symbol in upper
    case. *)
Definition lookup_coin {V} (m : gmap string V) (coin : string) : option V :=
  match m !! coin with
  | Some v => Some v
  | None =>
      let coinUpper := Strings.ToUpper coin in
      snd <$> find (fun kv => String.eqb (Strings.ToUpper kv.1) coinUpper) (range m)
  end.

Definition format1 (doc : option json) (coin : string) : option result :=
  match Unmarshal_directMids doc with
  | Some (Some directMids) =>
      if (0 <? size directMids)%nat
      then parsed coin <$> lookup_coin directMids coin
      else None
  | _ => None
  end.

Definition format2 (doc : option json) (coin : string) : option result :=
  match Unmarshal_wrapped doc with
  | Some wrappedResponse =>
      match W.Mids (W.Data wrappedResponse) with
      | Some mids => parsed coin <$> lookup_coin mids coin
      | None => None
      end
  | None => None
  end.

Definition format3 (doc : option json) (coin : string) : option result :=
  match Unmarshal_response doc with
  | Some response =>
      let a := match Mids response with
               | Some mids => parsed coin <$> lookup_coin mids coin
               | None => None
               end in
      match a with
      | Some r => Some r
      | None =>
          match Data response with
          | Some data =>
              (fun perpInfo => parsed coin (MidPx perpInfo)) <$> lookup_coin data coin
          | None => None
          end
      end
  | None => None
  end.

(** [GetPrice] from the point where the body has been read. *)
Definition extract (bodyBytes : string) (doc : option json) (coin : string) : result :=
  match format1 doc coin with
  | Some r => r
  | None =>
  match format2 doc coin with
  | Some r => r
  | None =>
  match format3 doc coin with
  | Some r => r
  | None =>
  match Unmarshal_generic doc with
  | Some genericResponse => Err (ErrNotFound coin (getMapKeys genericResponse))
  | None => Err (ErrNotFoundRaw coin (Strings.head_bytes 500 bodyBytes))
  end end end end.

(** [GetPrice] on the reply to its request. *)
Definition GetPrice_on (rt : RoundTrip) (coin : string) : result :=
  match rt with
  | Failed => Err ErrRequest
  | Reply resp =>
      if negb (StatusCode resp =? StatusOK) then
        Err (ErrStatus (StatusCode resp) (Body resp))
      else if ReadErr resp then Err ErrReadBody
      else extract (Body resp) (Doc resp) coin
  end.

(** [HyperLiquidClient.GetPrice]: one request, then the reply is read. *)
Definition GetPrice (coin : string) (up : Upstream) : result * Upstream :=
  let '(rt, up') := Do up in (GetPrice_on rt coin, up').

End GetPrice.

End Services.

(** ** Time (package [time]) *)

Module Time.

(** An instant, in nanoseconds. *)
Definition Time : Type := Z.
Definition Duration : Type := Z.

Definition Second : Duration := 1000000000.
Definition Hour : Duration := 3600 * Second.

(** [t.Add(d)] *)
Definition Add (t : Time) (d : Duration) : Time := t + d.

(** [t.AddDate(0, 0, days)], in UTC. *)
Definition AddDays (t : Time) (days : Z) : Time := t + days * (24 * Hour).

End Time.

(** ** The observation (package [models]) and its table *)

Module Models.
Import Services Time.

Section CoinPrice.
Context {RT : Runtime}.

Record CoinPrice := {
  ID : N;
  Coin : string;
  Price : float64;
  CreatedAt : Time;
  UpdatedAt : Time;
  DeletedAt : option Time
}.

End CoinPrice.

Arguments CoinPrice {RT}.
Arguments Build_CoinPrice {RT}.

End Models.

(** ** The store: the statements gorm issues on [coin_prices] *)

Module Gorm.
Import Services Time Models.

Section Store.
Context {RT : Runtime}.

Inductive Statement : Type :=
| INSERT (coin : string) (price : float64)
| UPDATE_deleted_at (cutoff : Time)
| SELECT_count (coin : string) (since : Time)
| SELECT_rows (coin : string) (since : Time).

(** The table, the next value of its key sequence, for each statement
    still to come whether it fails, and the statements issued so far. *)
Record DB := {
  rows : list CoinPrice;
  nextID : N;
  faults : list bool;
  issued : list Statement
}.

(** A statement reaches the store; the answer is whether it failed. *)
Definition issue (st : Statement) (db : DB) : bool * DB :=
  match faults db with
  | [] => (false, {| rows := rows db; nextID := nextID db; faults := [];
                     issued := issued db ++ [st] |})
  | f :: fs => (f, {| rows := rows db; nextID := nextID db; faults := fs;
                      issued := issued db ++ [st] |})
  end.

Definition with_rows (db : DB) (rs : list CoinPrice) (next : N) : DB :=
  {| rows := rs; nextID := next; faults := faults db; issued := issued db |}.

(** The default scope of a model with a [gorm.DeletedAt] column. *)
Definition live (r : CoinPrice) : bool :=
  match DeletedAt r with None => true | Some _ => false end.

(** [db.Create(&models.CoinPrice{Coin: coin, Price: price})] at [now]:
    the key and both timestamps are filled in.  [true] is an error. *)
Definition Create (now : Time) (coin : string) (price : float64) (db : DB) : bool * DB :=
  let '(failed, db1) := issue (INSERT coin price) db in
  if failed then (true, db1)
  else
    let row := {| ID := nextID db1; Coin := coin; Price := price;
                  CreatedAt := now; UpdatedAt := now; DeletedAt := None |} in
    (false, with_rows db1 (rows db1 ++ [row]) (N.succ (nextID db1))).

(** [db.Where("created_at < ?", cutoff).Delete(&models.CoinPrice{})] at
    [now]: the rows in the default scope that satisfy the condition get
    their deletion marker; the answer is the error and [RowsAffected]. *)
Definition old (cutoff : Time) (r : CoinPrice) : bool :=
  (CreatedAt r <? cutoff) && live r.

Definition mark (now : Time) (r : CoinPrice) : CoinPrice :=
  {| ID := ID r; Coin := Coin r; Price := Price r; CreatedAt := CreatedAt r;
     UpdatedAt := UpdatedAt r; DeletedAt := Some now |}.

Definition Delete_where_created_before (now cutoff : Time) (db : DB) : bool * Z * DB :=
  let '(failed, db1) := issue (UPDATE_deleted_at cutoff) db in
  if failed then (true, 0, db1)
  else
    let rs := map (fun r => if old cutoff r then mark now r else r) (rows db1) in
    (false, Z.of_nat (length (filter (fun r => old cutoff r = true) (rows db1))),
     with_rows db1 rs (nextID db1)).

(** [db.Where("coin = ? AND created_at >= ?", coin, since)] *)
Definition selected (coin : string) (since : Time) (r : CoinPrice) : bool :=
  String.eqb (Coin r) coin && (since <=? CreatedAt r) && live r.

(** [ORDER BY created_at DESC], by insertion. *)
Fixpoint insert_desc (r : CoinPrice) (l : list CoinPrice) : list CoinPrice :=
  match l with
  | [] => [r]
  | x :: l' => if CreatedAt x <=? CreatedAt r then r :: l else x :: insert_desc r l'
  end.

Definition order_desc (l : list CoinPrice) : list CoinPrice :=
  foldr insert_desc [] l.

(** [query.Model(&models.CoinPrice{}).Count(&count)] *)
Definition Count (coin : string) (since : Time) (db : DB) : bool * Z * DB :=
  let '(failed, db1) := issue (SELECT_count coin since) db in
  if failed then (true, 0, db1)
  else (false, Z.of_nat (length (filter (fun r => selected coin since r = true) (rows db1))), db1).

(** [query.Order("created_at DESC").Find(&prices)] *)
Definition Find_ordered (coin : string) (since : Time) (db : DB)
    : bool * list CoinPrice * DB :=
  let '(failed, db1) := issue (SELECT_rows coin since) db in
  if failed then (true, [], db1)
  else (false, order_desc (filter (fun r => selected coin since r = true) (rows db1)), db1).

End Store.

Arguments DB {RT}.
Arguments Statement {RT}.

End Gorm.

(** ** The fetch and retention cycles (package [workers]) *)

Module Workers.
Import Services Time Models Gorm.

Section Workers.
Context {RT : Runtime}.

Inductive LogLine : Type :=
| LogFetchStart                                   (* "Starting price fetch for tracked coins..." *)
| LogFetchError (coin : string) (e : error)       (* "Error fetching price for %s: %v" *)
| LogSaveError (coin : string)                    (* "Error saving price for %s: %v" *)
| LogSaved (coin : string) (price : float64)      (* "Successfully saved %s price: %.8f" *)
| LogFetchDone                                    (* "Price fetch completed" *)
| LogCleanupStart                                 (* "Starting cleanup of old coin prices..." *)
| LogCleanupError                                 (* "Error during cleanup: %v" *)
| LogCleanupDone (deleted : Z) (cutoff : Time).   (* "Cleanup completed. Deleted %d records older than %s" *)

(** What a cycle works on: the upstream, the store and the log. *)
Record World := {
  upstream : Upstream;
  db : DB;
  log : list LogLine
}.

Record PriceFetcher := { coins : list string }.

(** [NewPriceFetcher] *)
Definition NewPriceFetcher : PriceFetcher :=
  {| coins := ["BTC"; "ETH"; "SOL"; "ARB"; "AVAX"] |}.

(** The body of [for _, coin := range pf.coins]. *)
Definition fetchOne (now : Time) (w : World) (coin : string) : World :=
  let '(r, up) := GetPrice coin (upstream w) in
  match r with
  | Err e =>
      {| upstream := up; db := db w; log := log w ++ [LogFetchError coin e] |}
  | Ok price =>
      let '(failed, db') := Create now coin price (db w) in
      if failed
      then {| upstream := up; db := db'; log := log w ++ [LogSaveError coin] |}
      else {| upstream := up; db := db'; log := log w ++ [LogSaved coin price] |}
  end.

(** [(pf *PriceFetcher) fetchPrices], with the clock at [now]. *)
Definition fetchPrices (pf : PriceFetcher) (now : Time) (w : World) : World :=
  let w0 := {| upstream := upstream w; db := db w; log := log w ++ [LogFetchStart] |} in
  let w1 := foldl (fetchOne now) w0 (coins pf) in
  {| upstream := upstream w1; db := db w1; log := log w1 ++ [LogFetchDone] |}.

(** [(cw *CleanupWorker) cleanup], with the clock at [now]: the answer is
    the store after it and the lines logged. *)
Definition cleanup (now : Time) (d : DB) : DB * list LogLine :=
  let cutoff := AddDays now (-2) in
  let '(failed, affected, d') := Delete_where_created_before now cutoff d in
  if failed then (d', [LogCleanupStart; LogCleanupError])
  else (d', [LogCleanupStart; LogCleanupDone affected cutoff]).

(** What a [select] of a worker loop receives: the cancellation of the
    context, or a tick, with the clock at that moment. *)
Inductive Select : Type :=
| CtxDone
| TickerC (now : Time).

(** [(pf *PriceFetcher) Start]: the loop runs a fetch cycle at each tick
    and returns at the cancellation; the answer says whether it has
    returned (when the events run out it is still waiting). *)
Fixpoint PriceFetcher_Start (pf : PriceFetcher) (events : list Select) (w : World)
    : World * bool :=
  match events with
  | [] => (w, false)
  | CtxDone :: _ => (w, true)
  | TickerC now :: rest => PriceFetcher_Start pf rest (fetchPrices pf now w)
  end.

(** The [for] loop of [(cw *CleanupWorker) Start]. *)
Fixpoint CleanupWorker_loop (events : list Select) (d : DB) (lg : list LogLine)
    : DB * list LogLine * bool :=
  match events with
  | [] => (d, lg, false)
  | CtxDone :: _ => (d, lg, true)
  | TickerC now :: rest =>
      let '(d', lines) := cleanup now d in CleanupWorker_loop rest d' (lg ++ lines)
  end.

(** [(cw *CleanupWorker) Start], entered with the clock at [now]: one
    retention cycle at once, then the loop. *)
Definition CleanupWorker_Start (now : Time) (events : list Select) (d : DB)
    : DB * list LogLine * bool :=
  let '(d', lines) := cleanup now d in CleanupWorker_loop events d' lines.

End Workers.

Arguments World {RT}.
Arguments LogLine {RT}.

End Workers.

(** ** The query handler (package [handlers]) *)

Module Handlers.
Import Services Time Models Gorm.

Section Handlers.
Context {RT : Runtime}.

Record PriceResponse := {
  pCoin : string;           (* Coin *)
  pPrice : float64;         (* Price *)
  pCreatedAt : Time         (* CreatedAt *)
}.

Record PriceComparisonResponse := {
  rCoin : string;                  (* Coin *)
  Prices : list PriceResponse;
  Count_ : Z                       (* Count *)
}.

(** What [c.JSON(status, body)] sends. *)
Inductive Sent : Type :=
| JSONError (status : Z) (message : string)      (* map[string]string{"error": message} *)
| JSON (status : Z) (response : PriceComparisonResponse).

Definition StatusBadRequest : Z := 400.
Definition StatusInternalServerError : Z := 500.

Definition toResponse (price : CoinPrice) : PriceResponse :=
  {| pCoin := Coin price; pPrice := Price price; pCreatedAt := CreatedAt price |}.

(** [(h *PriceHandler) GetPriceComparison] for the path parameter [coin],
    with the clock at [now]. *)
Definition GetPriceComparison (now : Time) (coin : string) (d : DB) : Sent * DB :=
  if String.eqb coin "" then
    (JSONError StatusBadRequest "coin symbol is required", d)
  else
    let twentyFourHoursAgo := Add now (-24 * Hour) in
    let '(failed, count, d1) := Count coin twentyFourHoursAgo d in
    if failed then (JSONError StatusInternalServerError "failed to count prices", d1)
    else
      let '(failed, prices, d2) := Find_ordered coin twentyFourHoursAgo d1 in
      if failed then (JSONError StatusInternalServerError "failed to fetch prices", d2)
      else
        let priceResponses := map toResponse prices in
        (JSON StatusOK {| rCoin := coin; Prices := priceResponses; Count_ := count |}, d2).

End Handlers.

Arguments Sent {RT}.
Arguments PriceResponse {RT}.
Arguments PriceComparisonResponse {RT}.

End Handlers.

(** ** Payload shapes and store conditions used in the statements *)

Module Shapes.
Import Json Services Gorm.

(** A flat object of symbol and price string, members in document order. *)
Definition flat (kvs : list (string * string)) : json :=
  JObject (map (fun kv => (kv.1, JString kv.2)) kvs).

(** [{"data": {"mids": {...}}}] *)
Definition wrapped (kvs : list (string * string)) : json :=
  JObject [("data", JObject [("mids", flat kvs)])].


(** [{symbol: {"midPx": price}, ...}] *)
Definition perps (kvs : list (string * string)) : json :=
  JObject (map (fun kv => (kv.1, JObject [("midPx", JString kv.2)])) kvs).

(** [{"mids": {...}}], [{"data": {symbol: {"midPx": ...}}}] and both. *)
Definition nested_mids (kvs : list (string * string)) : json :=
  JObject [("mids", flat kvs)].

Definition nested_data (kvs : list (string * string)) : json :=
  JObject [("data", perps kvs)].

Definition nested_both (mids data : list (string * string)) : json :=
  JObject [("mids", flat mids); ("data", perps data)].

(** [{"data": {"mids": {...}}, "mids": {...}}] *)
Definition wrapped_and_mids (inner top : list (string * string)) : json :=
  JObject [("data", JObject [("mids", flat inner)]); ("mids", flat top)].

(** The record a perp payload gives a symbol. *)
Definition perp (px : string) : PerpInfo :=
  {| Funding := ""; ImpactPxs := []; MarkPx := ""; MidPx := px;
     OpenInterest := ""; OraclePx := ""; Premiums := []; Volume24h := "" |}.

(** What a lookup of [coin] in [m] may give: the entry of that very key if
    there is one, else the entry of a key equal to it up to case. *)
Definition found {V} (m : gmap string V) (coin : string) (x : V) : Prop :=
  match m !! coin with
  | Some y => x = y
  | None => exists k, m !! k = Some x /\ Strings.ToUpper k = Strings.ToUpper coin
  end.

(** The mapping an object's members denote: a later member of the same name
    replaces an earlier one. *)
Definition mapping {V} (kvs : list (string * V)) : gmap string V :=
  foldl (fun m kv => <[kv.1 := kv.2]> m) ∅ kvs.

(** A reply with status 200 whose body reads without error. *)
Definition reply200 (raw : string) (doc : option json) : RoundTrip :=
  Reply {| StatusCode := 200; Body := raw; ReadErr := false; Doc := doc |}.

(** The next [n] statements reach the store without error. *)
Definition healthy {RT : Runtime} (n : nat) (d : DB) : Prop :=
  Forall (fun f => f = false) (take n (faults d)).

(** Most recent first. *)
Definition newer_first {RT : Runtime} (a b : Models.CoinPrice) : Prop :=
  Models.CreatedAt b <= Models.CreatedAt a.

(** The symbols of a list whose fetch succeeds, with the price fetched:
    each symbol is given the next reply of the upstream. *)
Fixpoint fetched {RT : Runtime} (cs : list string) (up : Upstream)
    : list (string * float64) :=
  match cs with
  | [] => []
  | c :: cs' =>
      match GetPrice_on (Do up).1 c with
      | Ok p => (c, p) :: fetched cs' (Do up).2
      | Err _ => fetched cs' (Do up).2
      end
  end.

(** Of the writes attempted in turn, those the store accepts. *)
Fixpoint written {A} (l : list A) (fs : list bool) : list A :=
  match l with
  | [] => []
  | x :: l' =>
      match fs with
      | [] => x :: written l' []
      | true :: fs' => written l' fs'
      | false :: fs' => x :: written l' fs'
      end
  end.

(** The symbol a line of a fetch cycle is about. *)
Definition line_coin {RT : Runtime} (l : Workers.LogLine) : option string :=
  match l with
  | Workers.LogFetchError c _ | Workers.LogSaveError c | Workers.LogSaved c _ => Some c
  | _ => None
  end.

(** A value that is not an object or an array. *)
Definition scalar (v : json) : bool :=
  match v with
  | JNull | JBool _ | JNumber _ | JString _ => true
  | JArray _ | JObject _ => false
  end.

(** A number or a boolean. *)
Definition number_or_bool (v : json) : bool :=
  match v with
  | JBool _ | JNumber _ => true
  | _ => false
  end.

(** The ticks received before the cancellation. *)
Fixpoint ticks (events : list Workers.Select) : nat :=
  match events with
  | Workers.TickerC _ :: rest => S (ticks rest)
  | _ => O
  end.

(** The key sequence of a table is ahead of every key in it, and no key
    occurs twice. *)
Definition keyed {RT : Runtime} (d : DB) : Prop :=
  Forall (fun r => (Models.ID r < nextID d)%N) (rows d) /\
  NoDup (map Models.ID (rows d)).

(** A reply from which no price can come: the request failed, or the
    status is not 200. *)
Definition unusable (rt : RoundTrip) : Prop :=
  match rt with
  | Failed => True
  | Reply resp => StatusCode resp <> 200
  end.

(** The columns of a row that no retention cycle writes. *)
Definition observation {RT : Runtime} (r : Models.CoinPrice)
    : N * string * float64 * Time.Time * Time.Time :=
  (Models.ID r, Models.Coin r, Models.Price r, Models.CreatedAt r, Models.UpdatedAt r).

(** [n] copies of a byte. *)
Fixpoint bytes (n : nat) (c : ascii) : string :=
  match n with
  | O => EmptyString
  | S n' => String c (bytes n' c)
  end.

End Shapes.

(** ** A runtime to evaluate with: prices are exact decimals and a map is
       ranged over in the order of its entries *)

Module Exact.
Import Services.

Record decimal := { mantissa : Z; scale : nat }.

Definition digit (c : ascii) : option Z :=
  let n := nat_of_ascii c in
  if ((48 <=? n)%nat && (n <=? 57)%nat)%bool then Some (Z.of_nat (n - 48)) else None.

(** Digits with at most one point; [seen] is the number of digits read after
    the point, if the point has been read. *)
Fixpoint digits (s : string) (acc : Z) (seen : option nat) : option decimal :=
  match s with
  | EmptyString => Some {| mantissa := acc; scale := default O seen |}
  | String c s' =>
      if Ascii.eqb c "."%char then
        match seen with
        | None => digits s' acc (Some O)
        | Some _ => None
        end
      else
        match digit c with
        | Some d => digits s' (10 * acc + d) (S <$> seen)
        | None => None
        end
  end.

Definition parse (s : string) : option decimal :=
  match s with
  | EmptyString => None
  | _ => digits s 0 None
  end.

#[local] Instance runtime : Runtime := {|
  float64 := decimal;
  ParseFloat := parse;
  rangeOrder := fun V l => l;
  rangeOrder_perm := fun V l => Permutation_refl l
|}.

End Exact.

(** ** A table and replies to evaluate on *)

Module Samples.
Import Json Services Time Models Gorm Workers Shapes.

#[local] Existing Instance Exact.runtime.

Definition price (m : Z) : Exact.decimal := {| Exact.mantissa := m; Exact.scale := 0 |}.

Definition now0 : Time := 1000000 * Hour.

Definition ago (h : Z) : Time := now0 - h * Hour.

(** ETH one hour, three hours (marked deleted), 25 hours and 50 hours old,
    BTC two hours old. *)
Definition table : list CoinPrice := [
  {| ID := 1; Coin := "ETH"; Price := price 2900; CreatedAt := ago 50;
     UpdatedAt := ago 50; DeletedAt := None |};
  {| ID := 2; Coin := "ETH"; Price := price 3000; CreatedAt := ago 25;
     UpdatedAt := ago 25; DeletedAt := None |};
  {| ID := 3; Coin := "ETH"; Price := price 3050; CreatedAt := ago 3;
     UpdatedAt := ago 3; DeletedAt := Some (ago 2) |};
  {| ID := 4; Coin := "BTC"; Price := price 65000; CreatedAt := ago 2;
     UpdatedAt := ago 2; DeletedAt := None |};
  {| ID := 5; Coin := "ETH"; Price := price 3100; CreatedAt := ago 1;
     UpdatedAt := ago 1; DeletedAt := None |}
].

Definition store : DB :=
  {| rows := table; nextID := 6; faults := []; issued := [] |}.

Definition btc : string := "65000.12345678".

Definition btc_price : Exact.decimal :=
  {| Exact.mantissa := 6500012345678; Exact.scale := 8 |}.

(** A quoted string in a body. *)
Definition q (s : string) : string :=
  String (ascii_of_nat 34) (String.append s (String (ascii_of_nat 34) EmptyString)).

Definition cat (l : list string) : string := foldr String.append EmptyString l.

(** the body of [flat [("BTC", btc)]] *)
Definition body_flat : string := cat ["{"; q "BTC"; ":"; q btc; "}"].

(** the body of [flat [("btc", btc); ("ETH", "3000")]] *)
Definition body_lower : string :=
  cat ["{"; q "btc"; ":"; q btc; ","; q "ETH"; ":"; q "3000"; "}"].


(** the body of [nested_both [("btc", "1")] [("BTC", btc)]] *)
Definition body_both : string :=
  cat ["{"; q "mids"; ":{"; q "btc"; ":"; q "1"; "},"; q "data"; ":{"; q "BTC"; ":{";
       q "midPx"; ":"; q btc; "}}}"].

(** the body of a flat object giving BTC, ETH, SOL, ARB and AVAX the
    prices 1 to 5 *)
Definition five : list (string * string) :=
  [("BTC", "1"); ("ETH", "2"); ("SOL", "3"); ("ARB", "4"); ("AVAX", "5")].

Definition body_five : string :=
  cat ["{"; q "BTC"; ":"; q "1"; ","; q "ETH"; ":"; q "2"; ","; q "SOL"; ":"; q "3"; ",";
       q "ARB"; ":"; q "4"; ","; q "AVAX"; ":"; q "5"; "}"].

(** the body of an object giving BTC a price string and ETH a number *)
Definition spoiled : list (string * json) :=
  [("BTC", JString btc); ("ETH", JNumber (Some 3000))].

Definition body_spoiled : string :=
  cat ["{"; q "BTC"; ":"; q btc; ","; q "ETH"; ":3000}"].

(** the body of [flat [("BTC", "n/a")]] *)
Definition body_bad : string := cat ["{"; q "BTC"; ":"; q "n/a"; "}"].

(** the body of [flat [("BTC", "1"); ("BTC", btc); ("ETH", "2")]] *)
Definition body_twice : string :=
  cat ["{"; q "BTC"; ":"; q "1"; ","; q "BTC"; ":"; q btc; ","; q "ETH"; ":"; q "2"; "}"].

(** the body of the wrapped shape with its field names in other case *)
Definition body_upper : string :=
  cat ["{"; q "DATA"; ":{"; q "Mids"; ":{"; q "BTC"; ":"; q btc; "}}}"].

(** the body of [flat [("Btc", btc)]] *)
Definition body_mixed : string := cat ["{"; q "Btc"; ":"; q btc; "}"].

(** the body of a nested payload whose ["meta"] is a number *)
Definition body_meta : string :=
  cat ["{"; q "mids"; ":{"; q "BTC"; ":"; q btc; "},"; q "meta"; ":5}"].

Definition unavailable : Response :=
  {| StatusCode := 503; Body := "Service Unavailable"; ReadErr := false; Doc := None |}.

(** An empty table behind an upstream that answers every request with the
    five prices, and one behind an upstream that is down. *)
Definition world : World :=
  {| upstream := replicate 5 (reply200 body_five (Some (flat five)));
     db := {| rows := []; nextID := 1; faults := []; issued := [] |};
     log := [] |}.

Definition world_down : World :=
  {| upstream := [Failed; Reply unavailable];
     db := {| rows := []; nextID := 1; faults := []; issued := [] |};
     log := [] |}.

(** A table with one unmarked row created 47 and a half hours before
    [now0]. *)
Definition aging : DB :=
  {| rows := [ {| ID := 1; Coin := "BTC"; Price := price 65000;
                  CreatedAt := now0 - 47 * Hour - 1800 * Second;
                  UpdatedAt := now0 - 47 * Hour - 1800 * Second;
                  DeletedAt := None |} ];
     nextID := 2; faults := []; issued := [] |}.

(** The sample table behind a store whose next statement fails. *)
Definition failing : DB :=
  {| rows := table; nextID := 6; faults := [true]; issued := [] |}.

End Samples.

(** * Properties *)

Import Json Services Time Models Gorm Workers Handlers Shapes.

(** ** The store *)

Section StoreFacts.
Context {RT : Runtime}.

Lemma issue_rows (st : Statement) (d : DB) :
  rows (issue st d).2 = rows d /\ nextID (issue st d).2 = nextID d /\
  issued (issue st d).2 = (issued d ++ [st])%list.
Proof. unfold issue. destruct (faults d); simpl; auto. Qed.

Lemma issue_healthy (n : nat) (st : Statement) (d : DB) :
  healthy (S n) d -> (issue st d).1 = false /\ healthy n (issue st d).2.
Proof.
  unfold healthy, issue. destruct (faults d) as [|f fs]; simpl.
  - intros _. split; [reflexivity|]. destruct n; constructor.
  - intros H. inversion H; subst. split; [reflexivity | assumption].
Qed.

Lemma insert_desc_perm (r : CoinPrice) (l : list CoinPrice) :
  Permutation (insert_desc r l) (r :: l).
Proof.
  induction l as [|x l IH]; simpl; [reflexivity|].
  destruct (CreatedAt x <=? CreatedAt r); [reflexivity|].
  rewrite IH. apply perm_swap.
Qed.

Lemma order_desc_perm (l : list CoinPrice) : Permutation (order_desc l) l.
Proof.
  induction l as [|x l IH]; simpl; [constructor|].
  rewrite insert_desc_perm. by constructor.
Qed.

Lemma insert_desc_sorted (r : CoinPrice) (l : list CoinPrice) :
  StronglySorted newer_first l -> StronglySorted newer_first (insert_desc r l).
Proof.
  induction 1 as [|x l Hs IH Hx]; simpl.
  - repeat constructor.
  - destruct (CreatedAt x <=? CreatedAt r) eqn:E.
    + apply Z.leb_le in E. constructor; [by constructor|].
      constructor; [exact E|].
      eapply Forall_impl; [exact Hx|]. unfold newer_first. simpl. intros; lia.
    + apply Z.leb_gt in E. constructor; [exact IH|].
      eapply Permutation_Forall; [symmetry; apply insert_desc_perm|].
      constructor; [unfold newer_first; lia | exact Hx].
Qed.

Lemma order_desc_sorted (l : list CoinPrice) : StronglySorted newer_first (order_desc l).
Proof.
  induction l as [|x l IH]; simpl; [constructor|]. by apply insert_desc_sorted.
Qed.

Lemma selected_spec (coin : string) (since : Time) (r : CoinPrice) :
  selected coin since r = true <->
  Coin r = coin /\ since <= CreatedAt r /\ DeletedAt r = None.
Proof.
  unfold selected, live. rewrite !andb_true_iff, String.eqb_eq, Z.leb_le.
  destruct (DeletedAt r); intuition congruence.
Qed.

Lemma old_spec (cutoff : Time) (r : CoinPrice) :
  old cutoff r = true <-> CreatedAt r < cutoff /\ DeletedAt r = None.
Proof.
  unfold old, live. rewrite andb_true_iff, Z.ltb_lt.
  destruct (DeletedAt r); intuition congruence.
Qed.

End StoreFacts.

(** ** The query handler *)

Section QueryService.
Context {RT : Runtime}.

Lemma Count_healthy (n : nat) (coin : string) (since : Time) (d : DB) :
  healthy (S n) d ->
  exists d1, Count coin since d =
               (false, Z.of_nat (length (filter (fun r => selected coin since r = true) (rows d))), d1)
             /\ rows d1 = rows d /\ healthy n d1.
Proof.
  intros H. unfold Count.
  destruct (issue_healthy n (SELECT_count coin since) d H) as [Hf Hh].
  destruct (issue_rows (SELECT_count coin since) d) as (Hr & _ & _).
  destruct (issue _ d) as [f d1]; simpl in *. subst f.
  exists d1. rewrite Hr. auto.
Qed.

Lemma Find_healthy (n : nat) (coin : string) (since : Time) (d : DB) :
  healthy (S n) d ->
  exists d1, Find_ordered coin since d =
               (false, order_desc (filter (fun r => selected coin since r = true) (rows d)), d1)
             /\ rows d1 = rows d /\ healthy n d1.
Proof.
  intros H. unfold Find_ordered.
  destruct (issue_healthy n (SELECT_rows coin since) d H) as [Hf Hh].
  destruct (issue_rows (SELECT_rows coin since) d) as (Hr & _ & _).
  destruct (issue _ d) as [f d1]; simpl in *. subst f.
  exists d1. rewrite Hr. auto.
Qed.

(** C5.  For a non-empty symbol and a store that answers, the handler sends
    200 with exactly the rows whose coin is the symbol, whose [created_at]
    is at or after [now] minus 24 hours and whose deletion marker is null,
    most recent first, and their number as the count; when no row
    qualifies this is 200 with the empty list and count zero.  The table is
    left as it was. *)
Theorem query_last_24h (now : Time) (coin : string) (d : DB) :
  coin <> "" -> healthy 2 d ->
  let wanted := fun r : CoinPrice =>
    Coin r = coin /\ now - 24 * 3600 * 1000000000 <= CreatedAt r /\ DeletedAt r = None in
  exists prices d',
    GetPriceComparison now coin d =
      (JSON 200 {| rCoin := coin; Prices := map toResponse prices;
                   Count_ := Z.of_nat (length prices) |}, d') /\
    Permutation prices (filter wanted (rows d)) /\
    StronglySorted newer_first prices /\
    rows d' = rows d /\
    ((forall r, r ∈ rows d -> ~ wanted r) -> prices = []).
Proof.
  intros Hcoin Hh wanted.
  assert (Hf : filter (fun r => selected coin (Add now (-24 * Hour)) r = true) (rows d)
               = filter wanted (rows d)).
  { apply list_filter_iff. intros r. rewrite selected_spec. unfold wanted, Add, Hour, Second.
    intuition lia. }
  unfold GetPriceComparison.
  destruct (String.eqb_spec coin "") as [->|_]; [done|].
  destruct (Count_healthy 1 coin (Add now (-24 * Hour)) d Hh) as (d1 & -> & Hr1 & Hh1).
  destruct (Find_healthy 0 coin (Add now (-24 * Hour)) d1 Hh1) as (d2 & -> & Hr2 & _).
  rewrite Hr1, Hf.
  exists (order_desc (filter wanted (rows d))), d2.
  split; [|split; [|split; [|split]]].
  - unfold StatusOK. do 3 f_equal. f_equal.
    apply Permutation_length. symmetry. apply order_desc_perm.
  - apply order_desc_perm.
  - apply order_desc_sorted.
  - congruence.
  - intros Hnone.
    destruct (filter wanted (rows d)) as [|x l] eqn:E; [reflexivity|].
    exfalso. assert (Hx : x ∈ filter wanted (rows d)) by (rewrite E; left).
    apply list_elem_of_filter in Hx as [Hw Hin]. by apply (Hnone x).
Qed.

(** C9.  With an empty symbol the handler sends 400 with the message
    ["coin symbol is required"]; the store is the one it was given: no
    statement has been issued. *)
Theorem empty_symbol_is_bad_request (now : Time) (d : DB) :
  GetPriceComparison now "" d = (JSONError 400 "coin symbol is required", d) /\
  issued (GetPriceComparison now "" d).2 = issued d.
Proof. split; reflexivity. Qed.

(** C10.  In every 200 response the count is the number of entries of the
    prices list: the count query and the row query carry the same
    condition and meet the same table. *)
Theorem count_is_number_of_prices (now : Time) (coin : string) (d d' : DB)
    (resp : PriceComparisonResponse) :
  GetPriceComparison now coin d = (JSON 200 resp, d') ->
  Count_ resp = Z.of_nat (length (Prices resp)).
Proof.
  unfold GetPriceComparison, Count, Find_ordered.
  destruct (String.eqb coin ""); [discriminate|].
  destruct (issue _ d) as [f1 d1] eqn:E1.
  destruct f1; [discriminate|].
  destruct (issue _ d1) as [f2 d2] eqn:E2.
  destruct f2; [discriminate|].
  intros H. injection H as <- <-. simpl.
  rewrite length_map.
  assert (Hr : rows d1 = rows d).
  { pose proof (issue_rows (SELECT_count coin (Add now (-24 * Hour))) d) as (Hr & _).
    rewrite E1 in Hr. exact Hr. }
  assert (Hr2 : rows d2 = rows d1).
  { pose proof (issue_rows (SELECT_rows coin (Add now (-24 * Hour))) d1) as (Hr2 & _).
    rewrite E2 in Hr2. exact Hr2. }
  rewrite Hr2. f_equal.
  apply Permutation_length. symmetry. apply order_desc_perm.
Qed.

End QueryService.

(** ** The retention cycle *)

Section Retention.
Context {RT : Runtime}.

Lemma Delete_healthy (n : nat) (now cutoff : Time) (d : DB) :
  healthy (S n) d ->
  exists d1, Delete_where_created_before now cutoff d =
               (false, Z.of_nat (length (filter (fun r => old cutoff r = true) (rows d))), d1)
             /\ rows d1 = map (fun r => if old cutoff r then mark now r else r) (rows d)
             /\ healthy n d1.
Proof.
  intros H. unfold Delete_where_created_before.
  destruct (issue_healthy n (UPDATE_deleted_at cutoff) d H) as [Hf Hh].
  destruct (issue_rows (UPDATE_deleted_at cutoff) d) as (Hr & _ & _).
  destruct (issue _ d) as [f d1]; simpl in *. subst f.
  eexists. rewrite Hr. split; [reflexivity|]. split; [reflexivity|]. exact Hh.
Qed.

(** C6.  A retention cycle at [now] with a store that answers computes the
    cutoff [now] minus 2 days and sets the deletion marker of exactly the
    rows created strictly before it whose marker is null.  No row is
    removed; a row marked keeps its other columns; rows created at or
    after the cutoff and rows already marked are unchanged.  The number
    reported is the number of rows marked. *)
Theorem cleanup_soft_deletes_old_rows (now : Time) (d : DB) :
  healthy 1 d ->
  let cutoff := now - 2 * 24 * 3600 * 1000000000 in
  exists (d' : DB) (n : Z),
    cleanup now d = (d', [LogCleanupStart; LogCleanupDone n cutoff]) /\
    length (rows d') = length (rows d) /\
    n = Z.of_nat (length (filter (fun r => CreatedAt r < cutoff /\ DeletedAt r = None) (rows d))) /\
    forall (i : nat) (r : CoinPrice), rows d !! i = Some r ->
      exists r' : CoinPrice, rows d' !! i = Some r' /\
        ID r' = ID r /\ Coin r' = Coin r /\ Price r' = Price r /\
        CreatedAt r' = CreatedAt r /\ UpdatedAt r' = UpdatedAt r /\
        (CreatedAt r < cutoff -> DeletedAt r = None -> DeletedAt r' = Some now) /\
        (cutoff <= CreatedAt r -> r' = r) /\
        (DeletedAt r <> None -> r' = r).
Proof.
  intros Hh cutoff. unfold cleanup.
  assert (Hc : AddDays now (-2) = cutoff) by (unfold AddDays, Hour, Second, cutoff; lia).
  rewrite Hc.
  destruct (Delete_healthy 0 now cutoff d Hh) as (d1 & -> & Hr & _).
  exists d1, (Z.of_nat (length (filter (fun r => old cutoff r = true) (rows d)))).
  split; [reflexivity|]. split; [by rewrite Hr, length_map|]. split.
  - do 2 f_equal. apply list_filter_iff. intros r. apply old_spec.
  - intros i r Hi. rewrite Hr, list_lookup_fmap, Hi. simpl.
    eexists; split; [reflexivity|].
    destruct (old cutoff r) eqn:E.
    + apply old_spec in E as [E1 E2]. simpl.
      repeat split; try reflexivity.
      * intros H. lia.
      * intros H. rewrite E2 in H. by destruct H.
    + repeat split; try reflexivity. intros H1 H2.
      assert (H : old cutoff r = true) by (apply old_spec; split; assumption).
      rewrite E in H. discriminate.
Qed.

(** C7, as the code has it.  Each retention cycle reads the clock anew, so
    the cutoff of a second cycle is later than that of the first.  Two
    cycles in succession with no write between them: when no unmarked row
    was created at or after the first cutoff and before the second (none
    is when the clock reads the same for both), the second cycle marks
    nothing, reports zero and leaves every row as the first left it,
    whatever the first has marked. *)
Theorem cleanup_twice (now now' : Time) (d : DB) :
  healthy 2 d ->
  (forall r, r ∈ rows d -> DeletedAt r = None ->
             ~ (AddDays now (-2) <= CreatedAt r < AddDays now' (-2))) ->
  exists (d1 : DB) (n : Z) (d2 : DB),
    cleanup now d = (d1, [LogCleanupStart; LogCleanupDone n (AddDays now (-2))]) /\
    cleanup now' d1 = (d2, [LogCleanupStart; LogCleanupDone 0 (AddDays now' (-2))]) /\
    rows d2 = rows d1.
Proof.
  intros Hh Hgap.
  destruct (Delete_healthy 1 now (AddDays now (-2)) d Hh) as (d1 & E1 & Hr1 & Hh1).
  destruct (Delete_healthy 0 now' (AddDays now' (-2)) d1 Hh1) as (d2 & E2 & Hr2 & _).
  assert (Hnone : forall r, r ∈ rows d1 -> old (AddDays now' (-2)) r = false).
  { intros r'. rewrite Hr1. intros Hin. apply list_elem_of_fmap in Hin as (r & -> & Hin).
    destruct (old (AddDays now (-2)) r) eqn:E.
    { unfold old, live, mark. simpl. apply andb_false_r. }
    destruct (old (AddDays now' (-2)) r) eqn:E'; [|reflexivity].
    apply old_spec in E' as [F1 F2].
    assert (~ (CreatedAt r < AddDays now (-2) /\ DeletedAt r = None)) as Hn.
    { rewrite <- old_spec, E. discriminate. }
    exfalso. apply (Hgap r Hin F2). split; [|exact F1].
    destruct (Z.lt_ge_cases (CreatedAt r) (AddDays now (-2))); [tauto | assumption]. }
  exists d1, (Z.of_nat (length (filter (fun r => old (AddDays now (-2)) r = true) (rows d)))), d2.
  unfold cleanup. rewrite E1, E2.
  split; [reflexivity|].
  assert (Hf : filter (fun r => old (AddDays now' (-2)) r = true) (rows d1) = []).
  { destruct (filter _ (rows d1)) as [|x l] eqn:E; [reflexivity|]. exfalso.
    assert (Hx : x ∈ filter (fun r => old (AddDays now' (-2)) r = true) (rows d1))
      by (rewrite E; left).
    apply list_elem_of_filter in Hx as [Hw Hin]. rewrite (Hnone x Hin) in Hw. discriminate. }
  rewrite Hf. split; [reflexivity|].
  rewrite Hr2. rewrite <- (map_id (rows d1)) at 2.
  apply map_ext_in. intros r Hin. rewrite Hnone; [reflexivity|]. by apply list_elem_of_In.
Qed.

End Retention.

(** ** The adapter *)

Section Adapter.
Context {RT : Runtime}.

(** *** Ranging over a map *)

Lemma range_elem {V} (m : gmap string V) (k : string) (v : V) :
  (k, v) ∈ range m <-> m !! k = Some v.
Proof.
  unfold range. rewrite (rangeOrder_perm V (map_to_list m)).
  apply elem_of_map_to_list.
Qed.

Lemma find_some_elem {A} (f : A -> bool) (l : list A) (x : A) :
  find f l = Some x -> x ∈ l /\ f x = true.
Proof.
  intros H. apply find_some in H as [H1 H2]. split; [by apply list_elem_of_In | exact H2].
Qed.

Lemma find_none_elem {A} (f : A -> bool) (l : list A) :
  find f l = None <-> forall x, x ∈ l -> f x = false.
Proof.
  split.
  - intros H x Hx. apply (find_none f l H). by apply list_elem_of_In.
  - intros H. induction l as [|a l IH]; simpl; [reflexivity|].
    rewrite (H a) by left. apply IH. intros x Hx. apply H. by right.
Qed.

(** A lookup that gives something gives what [found] allows. *)
Lemma lookup_coin_found {V} (m : gmap string V) (coin : string) (x : V) :
  lookup_coin m coin = Some x -> found m coin x.
Proof.
  unfold lookup_coin, found. destruct (m !! coin) as [y|]; [congruence|].
  destruct (find _ (range m)) as [[k v]|] eqn:E; simpl; [|discriminate].
  intros [= ->]. apply find_some_elem in E as [Hin Hk]. simpl in Hk.
  exists k. split; [by apply range_elem | by apply String.eqb_eq].
Qed.

(** A lookup gives something as soon as a key equals the symbol up to
    case. *)
Lemma lookup_coin_is_Some {V} (m : gmap string V) (coin k : string) :
  is_Some (m !! k) -> Strings.ToUpper k = Strings.ToUpper coin ->
  is_Some (lookup_coin m coin).
Proof.
  intros [v Hv] Hk. unfold lookup_coin. destruct (m !! coin) as [y|]; [by eexists|].
  destruct (find _ (range m)) as [[k' v']|] eqn:E; simpl; [by eexists|].
  exfalso. rewrite find_none_elem in E.
  specialize (E (k, v) (proj2 (range_elem m k v) Hv)). simpl in E.
  apply String.eqb_neq in E. contradiction.
Qed.

Lemma lookup_coin_None {V} (m : gmap string V) (coin : string) :
  (forall k, is_Some (m !! k) -> Strings.ToUpper k <> Strings.ToUpper coin) ->
  lookup_coin m coin = None.
Proof.
  intros H. destruct (lookup_coin m coin) as [x|] eqn:E; [|reflexivity].
  exfalso. apply lookup_coin_found in E. unfold found in E.
  destruct (m !! coin) as [y|] eqn:Ec.
  - by apply (H coin).
  - destruct E as (k & Hk & Hu). apply (H k); [by eexists | exact Hu].
Qed.

Lemma lookup_coin_exact {V} (m : gmap string V) (coin : string) (x : V) :
  m !! coin = Some x -> lookup_coin m coin = Some x.
Proof. intros H. unfold lookup_coin. by rewrite H. Qed.

(** *** Decoding the payload shapes *)

Lemma members_nil {S} (step : S -> string * json -> decoded S) (cur : S) :
  members step [] cur = Some cur.
Proof. reflexivity. Qed.

Lemma members_cons {S} (step : S -> string * json -> decoded S)
    (kv : string * json) (ms : list (string * json)) (cur : S) :
  members step (kv :: ms) cur =
  match step cur kv with
  | Some st => members step ms st
  | None => None
  end.
Proof.
  unfold members. simpl. destruct (step cur kv); [reflexivity|].
  induction ms as [|x ms IH]; simpl; [reflexivity | exact IH].
Qed.

Ltac decode_members := repeat (rewrite ?members_cons, ?members_nil; simpl).

Lemma members_flat (kvs : list (string * string)) (m0 : gmap string string) :
  members (fun m kv => match into_string kv.2 "" with
                       | Some x => Some (<[kv.1 := x]> m)
                       | None => None
                       end)
          (map (fun kv => (kv.1, JString kv.2)) kvs) m0
  = Some (foldl (fun m kv => <[kv.1 := kv.2]> m) m0 kvs).
Proof.
  unfold members. revert m0. induction kvs as [|kv kvs IH]; intros m0; simpl; [reflexivity|].
  apply IH.
Qed.

Lemma into_string_map_flat (kvs : list (string * string)) :
  into_string_map (flat kvs) None = Some (Some (mapping kvs)).
Proof.
  unfold into_string_map, into_map, flat. rewrite members_flat. reflexivity.
Qed.

Lemma into_PerpInfo_midPx (px : string) :
  into_PerpInfo (JObject [("midPx", JString px)]) = Some (perp px).
Proof. reflexivity. Qed.

Lemma members_perps (kvs : list (string * string)) (m0 : gmap string string) :
  members (fun m (kv : string * json) =>
             match into_PerpInfo kv.2 with
             | Some x => Some (<[kv.1 := x]> m)
             | None => None
             end)
          (map (fun kv => (kv.1, JObject [("midPx", JString kv.2)])) kvs) (perp <$> m0)
  = Some (perp <$> foldl (fun m kv => <[kv.1 := kv.2]> m) m0 kvs).
Proof.
  unfold members. revert m0. induction kvs as [|kv kvs IH]; intros m0; [reflexivity|].
  cbn [map foldl fst snd]. rewrite into_PerpInfo_midPx, <- fmap_insert. apply IH.
Qed.

Lemma into_map_perps (kvs : list (string * string)) :
  into_map into_PerpInfo (perps kvs) None = Some (Some (perp <$> mapping kvs)).
Proof.
  unfold into_map, perps. simpl default.
  rewrite <- (fmap_empty perp), members_perps. reflexivity.
Qed.

(** Read as the inner struct of the wrapped response, a perp payload can
    only yield a mapping whose one key is ["midPx"]. *)
Lemma members_Inner_perps (kvs : list (string * string)) (i : W.Inner) :
  (forall m, W.Mids i = Some m -> forall k, is_Some (m !! k) -> k = "midPx") ->
  exists i', members Inner_member
               (map (fun kv => (kv.1, JObject [("midPx", JString kv.2)])) kvs) i = Some i' /\
             forall m, W.Mids i' = Some m -> forall k, is_Some (m !! k) -> k = "midPx".
Proof.
  unfold members. revert i. induction kvs as [|[k px] kvs IH]; intros i Hi; simpl.
  - by exists i.
  - destruct (fieldMatch k "mids"); [|by apply IH].
    simpl. apply IH. simpl. intros m [= <-] k' Hk'.
    destruct (decide (k' = "midPx")) as [|Hne]; [assumption|].
    rewrite lookup_insert_ne in Hk' by done.
    destruct (W.Mids i) as [m0|] eqn:E; simpl in Hk'.
    + by apply (Hi m0).
    + rewrite lookup_empty in Hk'. by destruct Hk'.
Qed.

Lemma midPx_only_no_coin (m : gmap string string) (coin : string) :
  (forall k, is_Some (m !! k) -> k = "midPx") ->
  Strings.ToUpper coin <> "MIDPX" ->
  lookup_coin m coin = None.
Proof.
  intros Hm Hc. apply lookup_coin_None. intros k Hk E.
  rewrite (Hm k Hk) in E. apply Hc. symmetry. exact E.
Qed.

(** *** What [GetPrice] makes of each shape *)

Lemma GetPrice_reply200 (raw : string) (doc : option json) (coin : string) (up : Upstream) :
  GetPrice coin (reply200 raw doc :: up) = (extract raw doc coin, up).
Proof. reflexivity. Qed.

Lemma lookup_coin_nonempty {V} (m : gmap string V) (coin : string) (x : V) :
  lookup_coin m coin = Some x -> (0 <? size m)%nat = true.
Proof.
  intros H. apply Nat.ltb_lt. destruct (size m) eqn:E; [|lia]. exfalso.
  apply map_size_empty_iff in E. subst m.
  apply lookup_coin_found in H. unfold found in H. rewrite lookup_empty in H.
  destruct H as (k & Hk & _). by rewrite lookup_empty in Hk.
Qed.

Lemma extract_flat (raw : string) (kvs : list (string * string)) (coin x : string) :
  lookup_coin (mapping kvs) coin = Some x ->
  extract raw (Some (flat kvs)) coin = parsed coin x.
Proof.
  intros H. unfold extract, format1.
  replace (Unmarshal_directMids (Some (flat kvs))) with (Some (Some (mapping kvs)))
    by (symmetry; apply into_string_map_flat).
  rewrite (lookup_coin_nonempty _ _ _ H), H. reflexivity.
Qed.

Lemma Unmarshal_wrapped_wrapped (kvs : list (string * string)) :
  Unmarshal_wrapped (Some (wrapped kvs)) = Some {| W.Data := {| W.Mids := Some (mapping kvs) |} |}.
Proof.
  unfold wrapped, flat. decode_members. rewrite members_flat. reflexivity.
Qed.

Lemma extract_wrapped (raw : string) (kvs : list (string * string)) (coin x : string) :
  lookup_coin (mapping kvs) coin = Some x ->
  extract raw (Some (wrapped kvs)) coin = parsed coin x.
Proof.
  intros H. unfold extract.
  change (format1 (Some (wrapped kvs)) coin) with (@None result).
  unfold format2. rewrite Unmarshal_wrapped_wrapped. simpl. rewrite H. reflexivity.
Qed.

Lemma Unmarshal_wrapped_and_mids (inner top : list (string * string)) :
  Unmarshal_wrapped (Some (wrapped_and_mids inner top))
  = Some {| W.Data := {| W.Mids := Some (mapping inner) |} |}.
Proof.
  unfold wrapped_and_mids, flat. decode_members. rewrite members_flat. reflexivity.
Qed.

Lemma extract_wrapped_and_mids (raw : string) (inner top : list (string * string))
    (coin x : string) :
  lookup_coin (mapping inner) coin = Some x ->
  extract raw (Some (wrapped_and_mids inner top)) coin = parsed coin x.
Proof.
  intros H. unfold extract.
  change (format1 (Some (wrapped_and_mids inner top)) coin) with (@None result).
  unfold format2. rewrite Unmarshal_wrapped_and_mids. simpl. rewrite H. reflexivity.
Qed.

Lemma format2_nested_mids (kvs : list (string * string)) (coin : string) :
  format2 (Some (nested_mids kvs)) coin = None.
Proof. reflexivity. Qed.

Lemma format2_perps (mids kvs : list (string * string)) (coin : string) :
  Strings.ToUpper coin <> "MIDPX" ->
  format2 (Some (nested_data kvs)) coin = None /\
  format2 (Some (nested_both mids kvs)) coin = None.
Proof.
  intros Hc.
  destruct (members_Inner_perps kvs {| W.Mids := None |}) as (i & E & Hi); [discriminate|].
  assert (Hi' : match W.Mids i with
                | Some m => parsed coin <$> lookup_coin m coin
                | None => None
                end = None).
  { destruct (W.Mids i) as [m|] eqn:Em; [|reflexivity].
    by rewrite (midPx_only_no_coin m coin (Hi m eq_refl) Hc). }
  unfold format2, nested_data, nested_both, perps.
  split; decode_members; rewrite E; exact Hi'.
Qed.

Lemma Unmarshal_response_nested_mids (kvs : list (string * string)) :
  Unmarshal_response (Some (nested_mids kvs))
  = Some {| Mids := Some (mapping kvs); Meta_ := zeroMeta; Data := None |}.
Proof.
  unfold nested_mids, flat. decode_members. rewrite members_flat. reflexivity.
Qed.

Lemma Unmarshal_response_nested_data (kvs : list (string * string)) :
  Unmarshal_response (Some (nested_data kvs))
  = Some {| Mids := None; Meta_ := zeroMeta; Data := Some (perp <$> mapping kvs) |}.
Proof.
  pose proof (into_map_perps kvs) as H. unfold into_map, perps in H.
  unfold nested_data, perps. decode_members.
  simpl in H. rewrite H. reflexivity.
Qed.

Lemma Unmarshal_response_nested_both (mids kvs : list (string * string)) :
  Unmarshal_response (Some (nested_both mids kvs))
  = Some {| Mids := Some (mapping mids); Meta_ := zeroMeta;
            Data := Some (perp <$> mapping kvs) |}.
Proof.
  pose proof (into_map_perps kvs) as H. unfold into_map, perps in H.
  unfold nested_both, perps, flat. decode_members. rewrite members_flat.
  decode_members. simpl in H. rewrite H. reflexivity.
Qed.

Lemma extract_nested_mids (raw : string) (kvs : list (string * string)) (coin x : string) :
  lookup_coin (mapping kvs) coin = Some x ->
  extract raw (Some (nested_mids kvs)) coin = parsed coin x.
Proof.
  intros H. unfold extract.
  change (format1 (Some (nested_mids kvs)) coin) with (@None result).
  rewrite format2_nested_mids.
  unfold format3. rewrite Unmarshal_response_nested_mids. simpl. rewrite H. reflexivity.
Qed.

Lemma extract_nested_data (raw : string) (kvs : list (string * string)) (coin : string)
    (p : PerpInfo) :
  Strings.ToUpper coin <> "MIDPX" ->
  lookup_coin (perp <$> mapping kvs) coin = Some p ->
  extract raw (Some (nested_data kvs)) coin = parsed coin (MidPx p).
Proof.
  intros Hc H. unfold extract.
  change (format1 (Some (nested_data kvs)) coin) with (@None result).
  rewrite (proj1 (format2_perps [] kvs coin Hc)).
  unfold format3. rewrite Unmarshal_response_nested_data. simpl. rewrite H. reflexivity.
Qed.

Lemma extract_nested_both_mids (raw : string) (mids kvs : list (string * string))
    (coin x : string) :
  Strings.ToUpper coin <> "MIDPX" ->
  lookup_coin (mapping mids) coin = Some x ->
  extract raw (Some (nested_both mids kvs)) coin = parsed coin x.
Proof.
  intros Hc H. unfold extract.
  change (format1 (Some (nested_both mids kvs)) coin) with (@None result).
  rewrite (proj2 (format2_perps mids kvs coin Hc)).
  unfold format3. rewrite Unmarshal_response_nested_both. simpl. rewrite H. reflexivity.
Qed.


(** *** Properties of the adapter *)


Lemma found_perp (m : gmap string string) (coin : string) (p : PerpInfo) :
  found (perp <$> m) coin p -> found m coin (MidPx p).
Proof.
  unfold found. rewrite lookup_fmap. destruct (m !! coin) as [y|]; simpl.
  - by intros ->.
  - intros (k & Hk & Hu). rewrite lookup_fmap in Hk.
    apply fmap_Some in Hk as (x & Hx & ->). by exists k.
Qed.


(** C2.  In each of the four candidate mappings the symbol is looked up by
    its exact key first and, only when that key is absent, among the keys
    equal to it up to case: when some key of the mapping equals the symbol
    up to case, [GetPrice] returns the parse of an entry that [found]
    allows.  (For the records under ["data"] the symbol must not be
    ["midPx"] up to case, which the wrapped attempt would pick up first.)
    In particular a flat payload with the key ["btc"] answers a request for
    ["BTC"]: with the price of ["BTC"] if that very key is there too, else
    with the price of a key that is BTC up to case, which is ["btc"] itself
    when there is no other. *)
Theorem lookup_exact_then_case_insensitive (kvs : list (string * string))
    (raw : string) (up : Upstream) :
  (forall coin,
     (exists k, is_Some (mapping kvs !! k) /\ Strings.ToUpper k = Strings.ToUpper coin) ->
     (exists s, found (mapping kvs) coin s /\
        GetPrice coin (reply200 raw (Some (flat kvs)) :: up) = (parsed coin s, up) /\
        GetPrice coin (reply200 raw (Some (wrapped kvs)) :: up) = (parsed coin s, up) /\
        GetPrice coin (reply200 raw (Some (nested_mids kvs)) :: up) = (parsed coin s, up)) /\
     (Strings.ToUpper coin <> "MIDPX" ->
      exists s, found (mapping kvs) coin s /\
        GetPrice coin (reply200 raw (Some (nested_data kvs)) :: up) = (parsed coin s, up))) /\
  (forall s, mapping kvs !! "btc" = Some s ->
     exists s', found (mapping kvs) "BTC" s' /\
       GetPrice "BTC" (reply200 raw (Some (flat kvs)) :: up) = (parsed "BTC" s', up) /\
       ((forall k, is_Some (mapping kvs !! k) -> Strings.ToUpper k = "BTC" -> k = "btc") ->
        s' = s)).
Proof.
  split.
  - intros coin (k & Hk & Hu).
    destruct (lookup_coin_is_Some (mapping kvs) coin k Hk Hu) as [s Hs].
    pose proof (lookup_coin_found _ _ _ Hs) as Hf.
    split.
    + exists s. rewrite !GetPrice_reply200.
      rewrite (extract_flat raw kvs coin s Hs), (extract_wrapped raw kvs coin s Hs),
        (extract_nested_mids raw kvs coin s Hs). auto.
    + intros Hc.
      assert (Hk' : is_Some ((perp <$> mapping kvs) !! k))
        by (by rewrite lookup_fmap, fmap_is_Some).
      destruct (lookup_coin_is_Some (perp <$> mapping kvs) coin k Hk' Hu) as [p Hp].
      exists (MidPx p). split; [apply found_perp; by apply lookup_coin_found|].
      by rewrite GetPrice_reply200, (extract_nested_data raw kvs coin p Hc Hp).
  - intros s Hbtc.
    assert (Hk : is_Some (mapping kvs !! "btc")) by (by rewrite Hbtc).
    destruct (lookup_coin_is_Some (mapping kvs) "BTC" "btc" Hk eq_refl) as [s' Hs'].
    pose proof (lookup_coin_found _ _ _ Hs') as Hf.
    exists s'. split; [exact Hf|]. split.
    + by rewrite GetPrice_reply200, (extract_flat raw kvs "BTC" s' Hs').
    + intros Huniq. unfold found in Hf.
      destruct (mapping kvs !! "BTC") as [y|] eqn:E.
      * assert ("BTC" = "btc") by (apply Huniq; [by rewrite E | reflexivity]). discriminate.
      * destruct Hf as (k' & Hk'1 & Hk'2).
        assert (k' = "btc") by (apply Huniq; [by rewrite Hk'1 | exact Hk'2]).
        subst k'. rewrite Hbtc in Hk'1. by injection Hk'1.
Qed.

(** C3, on a payload of the nested shape.  The requested symbol is absent
    and ETH is present; the error names the fields of the payload
    (["mids"]), not the symbols in it. *)
Theorem not_found_lists_field_names (raw : string) (up : Upstream) :
  GetPrice "BTC" (reply200 raw (Some (nested_mids [("ETH", "3000")])) :: up)
  = (Err (ErrNotFound "BTC" ["mids"]), up).
Proof.
  rewrite GetPrice_reply200. f_equal. unfold extract.
  change (format1 (Some (nested_mids [("ETH", "3000")])) "BTC") with (@None result).
  rewrite format2_nested_mids.
  unfold format3. rewrite Unmarshal_response_nested_mids. simpl.
  rewrite lookup_coin_None.
  - simpl. unfold range. rewrite insert_empty, map_to_list_singleton.
    pose proof (rangeOrder_perm json [("mids", flat [("ETH", "3000")])]) as Hp.
    apply Permutation_singleton_r in Hp. rewrite Hp. reflexivity.
  - intros k Hk E. unfold mapping in Hk. simpl in Hk.
    destruct (decide (k = "ETH")) as [->|Hne]; [vm_compute in E; discriminate|].
    rewrite lookup_insert_ne, lookup_empty in Hk by done. by destruct Hk.
Qed.

(** On a flat payload the fields of the payload are its symbols: when no
    key equals the requested symbol up to case, the error lists exactly the
    symbols of the payload, in the order the range gives them. *)
Lemma members_Wrapped_flat (kvs : list (string * string)) (w : W.WrappedAllMidsResponse) :
  members Wrapped_member (map (fun kv => (kv.1, JString kv.2)) kvs) w = None \/
  members Wrapped_member (map (fun kv => (kv.1, JString kv.2)) kvs) w = Some w.
Proof.
  induction kvs as [|[k x] kvs IH]; [by right|].
  cbn [map fst snd]. rewrite members_cons.
  change (Wrapped_member w (k, JString x))
    with (if fieldMatch k "data" then @None W.WrappedAllMidsResponse else Some w).
  destruct (fieldMatch k "data"); [by left | exact IH].
Qed.

Lemma members_AllMids_flat (kvs : list (string * string)) (r : AllMidsResponse) :
  members AllMidsResponse_member (map (fun kv => (kv.1, JString kv.2)) kvs) r = None \/
  members AllMidsResponse_member (map (fun kv => (kv.1, JString kv.2)) kvs) r = Some r.
Proof.
  induction kvs as [|[k x] kvs IH]; [by right|].
  cbn [map fst snd]. rewrite members_cons.
  change (AllMidsResponse_member r (k, JString x))
    with (if fieldMatch k "mids" then @None AllMidsResponse
          else if fieldMatch k "meta" then None
          else if fieldMatch k "data" then None else Some r).
  destruct (fieldMatch k "mids"); [by left|].
  destruct (fieldMatch k "meta"); [by left|].
  destruct (fieldMatch k "data"); [by left | exact IH].
Qed.

Lemma members_generic (ms : list (string * json)) (m0 : gmap string json) :
  members (fun m (kv : string * json) => Some (<[kv.1 := kv.2]> m)) ms m0
  = Some (foldl (fun m kv => <[kv.1 := kv.2]> m) m0 ms).
Proof.
  unfold members. revert m0. induction ms as [|kv ms IH]; intros m0; simpl; [reflexivity|].
  apply IH.
Qed.

Lemma mapping_JString (kvs : list (string * string)) (m0 : gmap string string) :
  foldl (fun m (kv : string * json) => <[kv.1 := kv.2]> m) (JString <$> m0)
        (map (fun kv : string * string => (kv.1, JString kv.2)) kvs)
  = JString <$> foldl (fun m kv => <[kv.1 := kv.2]> m) m0 kvs.
Proof.
  revert m0. induction kvs as [|[k x] kvs IH]; intros m0; simpl; [reflexivity|].
  rewrite <- fmap_insert. apply IH.
Qed.

Theorem not_found_flat_lists_symbols (kvs : list (string * string)) (coin raw : string)
    (up : Upstream) :
  (forall k, is_Some (mapping kvs !! k) -> Strings.ToUpper k <> Strings.ToUpper coin) ->
  exists keys,
    GetPrice coin (reply200 raw (Some (flat kvs)) :: up) = (Err (ErrNotFound coin keys), up) /\
    Permutation keys (map_to_list (mapping kvs)).*1.
Proof.
  intros Hno. rewrite GetPrice_reply200. unfold extract.
  assert (H1 : format1 (Some (flat kvs)) coin = None).
  { unfold format1.
    replace (Unmarshal_directMids (Some (flat kvs))) with (Some (Some (mapping kvs)))
      by (symmetry; apply into_string_map_flat).
    rewrite (lookup_coin_None _ _ Hno). by destruct (0 <? size (mapping kvs))%nat. }
  assert (H2 : format2 (Some (flat kvs)) coin = None).
  { unfold format2, flat. simpl.
    destruct (members_Wrapped_flat kvs zeroWrapped) as [-> | ->]; reflexivity. }
  assert (H3 : format3 (Some (flat kvs)) coin = None).
  { unfold format3, flat. simpl.
    destruct (members_AllMids_flat kvs zeroAllMidsResponse) as [-> | ->]; reflexivity. }
  rewrite H1, H2, H3. unfold flat. simpl. rewrite members_generic. simpl.
  eexists. split; [reflexivity|].
  unfold range. rewrite rangeOrder_perm.
  pose proof (mapping_JString kvs ∅) as E. rewrite fmap_empty in E. rewrite E.
  rewrite map_to_list_fmap, <- list_fmap_compose. reflexivity.
Qed.

(** C4, as the code has it.  A reply whose status is not 200 (so every
    status outside 2xx) makes [GetPrice] return at once an error with the
    status code and the whole body as read; the payload is not looked at,
    and one reply of the upstream has been used: there is no retry. *)
Theorem non_200_status_is_error (resp : Response) (coin : string) (up : Upstream) :
  StatusCode resp <> 200 ->
  GetPrice coin (Reply resp :: up) = (Err (ErrStatus (StatusCode resp) (Body resp)), up).
Proof.
  intros H. unfold GetPrice, GetPrice_on. simpl.
  destruct (Z.eqb_spec (StatusCode resp) StatusOK) as [E|_]; [contradiction|reflexivity].
Qed.

Lemma length_bytes (n : nat) (c : ascii) : String.length (bytes n c) = n.
Proof. induction n as [|n IH]; simpl; [reflexivity | by rewrite IH]. Qed.

End Adapter.

(** ** The fetch cycle *)

Section FetchCycle.
Context {RT : Runtime}.

Lemma written_nil {A} (l : list A) : written l [] = l.
Proof. induction l as [|x l IH]; simpl; [reflexivity | by rewrite IH]. Qed.

Lemma drop_Do (n : nat) (up : Upstream) : drop (S n) up = drop n (Do up).2.
Proof. destruct up; simpl; [by destruct n | reflexivity]. Qed.

Lemma Create_effect (now : Time) (coin : string) (price : float64) (d : DB) :
  let row := {| ID := nextID d; Coin := coin; Price := price; CreatedAt := now;
                UpdatedAt := now; DeletedAt := None |} in
  match faults d with
  | [] => Create now coin price d =
            (false, {| rows := rows d ++ [row]; nextID := N.succ (nextID d);
                       faults := []; issued := issued d ++ [INSERT coin price] |})
  | true :: fs => Create now coin price d =
            (true, {| rows := rows d; nextID := nextID d;
                      faults := fs; issued := issued d ++ [INSERT coin price] |})
  | false :: fs => Create now coin price d =
            (false, {| rows := rows d ++ [row]; nextID := N.succ (nextID d);
                       faults := fs; issued := issued d ++ [INSERT coin price] |})
  end.
Proof.
  unfold Create, issue. destruct (faults d) as [|[] fs]; reflexivity.
Qed.

Lemma fetch_loop (now : Time) (cs : list string) (w : World) :
  exists (new : list CoinPrice) (lines : list LogLine),
    rows (db (foldl (fetchOne now) w cs)) = rows (db w) ++ new /\
    map (fun r => (Coin r, Price r)) new
      = written (fetched cs (upstream w)) (faults (db w)) /\
    Forall (fun r => CreatedAt r = now /\ UpdatedAt r = now /\ DeletedAt r = None) new /\
    upstream (foldl (fetchOne now) w cs) = drop (length cs) (upstream w) /\
    log (foldl (fetchOne now) w cs) = log w ++ lines /\
    map line_coin lines = map Some cs.
Proof.
  revert w. induction cs as [|c cs IH]; intros w.
  - exists [], []. simpl. rewrite !app_nil_r. repeat split; constructor.
  - simpl foldl. destruct (IH (fetchOne now w c)) as (new & lines & Hr & Hm & Hf & Hu & Hl & Hc).
    simpl length. rewrite Hr, Hu, Hl, drop_Do. clear IH Hr Hu Hl.
    unfold fetchOne, GetPrice in *. simpl fetched.
    destruct (Do (upstream w)) as [rt up]. simpl fst. simpl snd.
    destruct (GetPrice_on rt c) as [price|e].
    + pose proof (Create_effect now c price (db w)) as HC. simpl in HC.
      destruct (faults (db w)) as [|[] fs] eqn:Efs; rewrite HC in *; simpl in *.
      * eexists (_ :: new), (_ :: lines). rewrite <- !app_assoc. simpl.
        repeat split; try reflexivity; [by rewrite Hm | by constructor | by rewrite Hc].
      * exists new, (LogSaveError c :: lines). rewrite <- !app_assoc. simpl.
        repeat split; try reflexivity; [exact Hm | exact Hf | by rewrite Hc].
      * eexists (_ :: new), (_ :: lines). rewrite <- !app_assoc. simpl.
        repeat split; try reflexivity; [by rewrite Hm | by constructor | by rewrite Hc].
    + simpl in *. exists new, (LogFetchError c e :: lines). rewrite <- !app_assoc. simpl.
      repeat split; try reflexivity; [exact Hm | exact Hf | by rewrite Hc].
Qed.

(** C8.  A fetch cycle goes through the symbols in order (BTC, ETH, SOL,
    ARB, AVAX for the fetcher the process builds); every symbol takes one
    reply of the upstream and gets one log line, whatever happened to the
    symbols before it; the table grows by exactly one row, with the price
    fetched and the time of the insert, for each symbol whose fetch
    succeeded and whose write the store accepted, and by none for the
    others; the rows that were there stay. *)
Theorem fetch_cycle (pf : PriceFetcher) (now : Time) (w : World) :
  coins NewPriceFetcher = ["BTC"; "ETH"; "SOL"; "ARB"; "AVAX"] /\
  exists (new : list CoinPrice) (lines : list LogLine),
    rows (db (fetchPrices pf now w)) = rows (db w) ++ new /\
    map (fun r => (Coin r, Price r)) new
      = written (fetched (coins pf) (upstream w)) (faults (db w)) /\
    Forall (fun r => CreatedAt r = now /\ UpdatedAt r = now /\ DeletedAt r = None) new /\
    upstream (fetchPrices pf now w) = drop (length (coins pf)) (upstream w) /\
    log (fetchPrices pf now w) = log w ++ [LogFetchStart] ++ lines ++ [LogFetchDone] /\
    map line_coin lines = map Some (coins pf).
Proof.
  split; [reflexivity|]. unfold fetchPrices.
  destruct (fetch_loop now (coins pf)
              {| upstream := upstream w; db := db w; log := log w ++ [LogFetchStart] |})
    as (new & lines & Hr & Hm & Hf & Hu & Hl & Hc).
  exists new, lines. simpl in *. rewrite Hr, Hu, Hl, <- !app_assoc.
  repeat split; try reflexivity; assumption.
Qed.

End FetchCycle.

(** ** More on the adapter *)

Section AdapterEdges.
Context {RT : Runtime}.

Lemma extract_not_object (raw : string) (doc : option json) (coin : string) :
  match doc with
  | Some (JObject _) => True
  | Some JNull => extract raw doc coin = Err (ErrNotFound coin [])
  | _ => extract raw doc coin = Err (ErrNotFoundRaw coin (Strings.head_bytes 500 raw))
  end.
Proof. destruct doc as [[]|]; first [reflexivity | exact I]. Qed.

(** X1.  [GetPrice] returns a price only from a reply with status 200 whose
    body was read without error and is a JSON object; the reply is the
    first the upstream had to give, and only that one is used. *)
Theorem price_only_from_object (coin : string) (up up' : Upstream) (v : float64) :
  GetPrice coin up = (Ok v, up') ->
  exists resp ms,
    up = Reply resp :: up' /\ StatusCode resp = 200 /\ ReadErr resp = false /\
    Doc resp = Some (JObject ms).
Proof.
  unfold GetPrice, GetPrice_on. destruct up as [|[|resp] up]; simpl; try discriminate.
  destruct (Z.eqb_spec (StatusCode resp) StatusOK) as [E|_]; simpl; [|discriminate].
  destruct (ReadErr resp) eqn:Er; [discriminate|].
  intros H. injection H as H <-.
  pose proof (extract_not_object (Body resp) (Doc resp) coin) as Hd.
  destruct (Doc resp) as [[]|] eqn:Ed; try (rewrite Hd in H; discriminate H).
  exists resp. eexists. repeat split; [exact E | exact Er | exact Ed].
Qed.

Lemma substring_length (n : nat) (s : string) :
  (n <= String.length s)%nat -> String.length (substring 0 n s) = n.
Proof.
  revert n. induction s as [|c s IH]; intros [|n] H; simpl in *; try reflexivity; try lia.
  rewrite IH; [reflexivity | lia].
Qed.

Lemma substring_prefix (n : nat) (s : string) :
  exists rest, s = String.append (substring 0 n s) rest.
Proof.
  revert n. induction s as [|c s IH]; intros [|n]; simpl; try (by eexists).
  destruct (IH n) as [rest E]. exists rest.
  change (String c s = String c (String.append (substring 0 n s) rest)). by rewrite <- E.
Qed.

(** X2.  A body that is not JSON, or is JSON but neither an object nor
    [null], gives the error that quotes the body: the quotation is the
    start of the body, whole when the body has at most 500 bytes and cut
    to 500 bytes otherwise.  A [null] body gives the not-found error with
    an empty list. *)
Theorem non_object_body_is_quoted (raw : string) (doc : option json) (coin : string)
    (up : Upstream) :
  match doc with
  | Some (JObject _) => True
  | Some JNull =>
      GetPrice coin (reply200 raw doc :: up) = (Err (ErrNotFound coin []), up)
  | _ =>
      GetPrice coin (reply200 raw doc :: up)
      = (Err (ErrNotFoundRaw coin (Strings.head_bytes 500 raw)), up)
  end /\
  (exists rest, raw = String.append (Strings.head_bytes 500 raw) rest) /\
  String.length (Strings.head_bytes 500 raw) = Nat.min 500 (String.length raw) /\
  ((String.length raw <= 500)%nat -> Strings.head_bytes 500 raw = raw).
Proof.
  split; [|split; [|split]].
  - pose proof (extract_not_object raw doc coin) as H.
    destruct doc as [[]|]; try exact I; rewrite GetPrice_reply200, H; reflexivity.
  - apply substring_prefix.
  - unfold Strings.head_bytes, Strings.min.
    destruct (Nat.ltb_spec 500 (String.length raw)); rewrite substring_length; lia.
  - intros H. unfold Strings.head_bytes, Strings.min.
    destruct (Nat.ltb_spec 500 (String.length raw)); [lia|].
    clear. induction raw as [|c s IH]; simpl; [reflexivity | by rewrite IH].
Qed.

End AdapterEdges.

Section AdapterShapes.
Context {RT : Runtime}.

Lemma members_None {S} (step : S -> string * json -> decoded S)
    (ms : list (string * json)) (cur : S) :
  Exists (fun kv => forall st, step st kv = None) ms -> members step ms cur = None.
Proof.
  intros H. revert cur. induction H as [kv ms Hkv | kv ms _ IH]; intros cur;
    rewrite members_cons.
  - by rewrite Hkv.
  - destruct (step cur kv); [apply IH | reflexivity].
Qed.

Lemma members_Wrapped_scalar (ms : list (string * json)) :
  Forall (fun kv => scalar kv.2 = true) ms ->
  members Wrapped_member ms zeroWrapped = None \/
  members Wrapped_member ms zeroWrapped = Some zeroWrapped.
Proof.
  induction 1 as [|[k v] ms Hv _ IH]; [by right|].
  rewrite members_cons. unfold Wrapped_member at 1 3.
  destruct (fieldMatch k "data"); [|exact IH].
  destruct v; simpl in Hv; try discriminate Hv; simpl; auto.
Qed.

Lemma members_AllMids_scalar (ms : list (string * json)) :
  Forall (fun kv => scalar kv.2 = true) ms ->
  members AllMidsResponse_member ms zeroAllMidsResponse = None \/
  members AllMidsResponse_member ms zeroAllMidsResponse = Some zeroAllMidsResponse.
Proof.
  induction 1 as [|[k v] ms Hv _ IH]; [by right|].
  rewrite members_cons. unfold AllMidsResponse_member at 1 3.
  destruct (fieldMatch k "mids");
    [destruct v; simpl in Hv; try discriminate Hv; simpl; auto|].
  destruct (fieldMatch k "meta");
    [destruct v; simpl in Hv; try discriminate Hv; simpl; auto|].
  destruct (fieldMatch k "data");
    [destruct v; simpl in Hv; try discriminate Hv; simpl; auto|].
  exact IH.
Qed.

(** X3.  One number or boolean among the values of an otherwise flat
    payload spoils the whole payload: no shape decodes, and [GetPrice]
    answers not-found with the names of all members, the requested symbol
    among them if it is there with a good price. *)
Theorem one_number_spoils_flat_payload (ms : list (string * json)) (raw coin : string)
    (up : Upstream) :
  Forall (fun kv => scalar kv.2 = true) ms ->
  Exists (fun kv => number_or_bool kv.2 = true) ms ->
  exists keys,
    GetPrice coin (reply200 raw (Some (JObject ms)) :: up) = (Err (ErrNotFound coin keys), up) /\
    Permutation keys (map_to_list (mapping ms)).*1.
Proof.
  intros Hs Hn. rewrite GetPrice_reply200. unfold extract.
  assert (H1 : format1 (Some (JObject ms)) coin = None).
  { unfold format1, Unmarshal_directMids. simpl.
    rewrite members_None; [reflexivity|].
    eapply Exists_impl; [exact Hn|]. intros [k v] Hv st. simpl in *.
    by destruct v. }
  assert (H2 : format2 (Some (JObject ms)) coin = None).
  { unfold format2. simpl.
    destruct (members_Wrapped_scalar ms Hs) as [-> | ->]; reflexivity. }
  assert (H3 : format3 (Some (JObject ms)) coin = None).
  { unfold format3. simpl.
    destruct (members_AllMids_scalar ms Hs) as [-> | ->]; reflexivity. }
  rewrite H1, H2, H3. simpl. rewrite members_generic. simpl.
  eexists. split; [reflexivity|]. unfold range, mapping. apply Permutation_map, rangeOrder_perm.
Qed.

End AdapterShapes.

Section AdapterLookups.
Context {RT : Runtime}.

Lemma parsed_Err (coin text : string) :
  ParseFloat text = None -> parsed coin text = Err (ErrParsePrice coin text).
Proof. intros H. unfold parsed. by rewrite H. Qed.

(** X4.  A price string that does not parse is a hard error where it is
    found: the exact key is not passed over for another key equal up to
    case, and the shape that holds it is not passed over for a later shape
    that holds a good price. *)
Theorem parse_failure_is_final (kvs other : list (string * string)) (coin s raw : string)
    (up : Upstream) :
  mapping kvs !! coin = Some s -> ParseFloat s = None ->
  GetPrice coin (reply200 raw (Some (flat kvs)) :: up)
    = (Err (ErrParsePrice coin s), up) /\
  GetPrice coin (reply200 raw (Some (wrapped_and_mids kvs other)) :: up)
    = (Err (ErrParsePrice coin s), up) /\
  (Strings.ToUpper coin <> "MIDPX" ->
   GetPrice coin (reply200 raw (Some (nested_both kvs other)) :: up)
     = (Err (ErrParsePrice coin s), up)).
Proof.
  intros Hk Hp. pose proof (lookup_coin_exact _ _ _ Hk) as Hl.
  pose proof (parsed_Err coin s Hp) as He.
  rewrite !GetPrice_reply200, (extract_flat raw kvs coin s Hl),
    (extract_wrapped_and_mids raw kvs other coin s Hl), He.
  repeat split. intros Hc.
  by rewrite (extract_nested_both_mids raw kvs other coin s Hc Hl), He.
Qed.

Lemma mapping_app {V} (l1 l2 : list (string * V)) :
  mapping (l1 ++ l2) = foldl (fun m kv => <[kv.1 := kv.2]> m) (mapping l1) l2.
Proof. unfold mapping. apply foldl_app. Qed.

Lemma mapping_snoc {V} (l : list (string * V)) (k : string) (v : V) :
  mapping (l ++ [(k, v)]) !! k = Some v.
Proof. rewrite mapping_app. simpl. apply lookup_insert_eq. Qed.

(** X5.  When a flat payload names a symbol more than once, the last
    member is the one read. *)
Theorem last_duplicate_wins (kvs rest : list (string * string)) (coin s raw : string)
    (up : Upstream) :
  (forall kv, kv ∈ rest -> kv.1 <> coin) ->
  GetPrice coin (reply200 raw (Some (flat (kvs ++ (coin, s) :: rest))) :: up)
  = (parsed coin s, up).
Proof.
  intros Hrest. rewrite GetPrice_reply200. f_equal. apply extract_flat, lookup_coin_exact.
  rewrite mapping_app.
  generalize (@mapping string kvs). clear kvs. intros m. simpl.
  assert (H : (<[coin := s]> m) !! coin = Some s) by apply lookup_insert_eq.
  revert H. generalize (<[coin := s]> m). clear m.
  induction rest as [|[k x] rest IH]; intros m Hm; simpl; [exact Hm|].
  apply IH.
  - intros kv Hkv. apply Hrest. by right.
  - rewrite lookup_insert_ne; [exact Hm|]. apply (Hrest (k, x)). by left.
Qed.

(** X6.  The field names ["data"] and ["mids"] of the wrapped shape are
    matched up to case. *)
Theorem wrapped_fields_up_to_case (kd km : string) (kvs : list (string * string))
    (coin x raw : string) (up : Upstream) :
  Strings.EqualFold kd "data" = true -> Strings.EqualFold km "mids" = true ->
  lookup_coin (mapping kvs) coin = Some x ->
  GetPrice coin (reply200 raw (Some (JObject [(kd, JObject [(km, flat kvs)])])) :: up)
  = (parsed coin x, up).
Proof.
  intros Hd Hm Hl. rewrite GetPrice_reply200. f_equal. unfold extract.
  change (format1 (Some (JObject [(kd, JObject [(km, flat kvs)])])) coin)
    with (@None result).
  assert (E : Unmarshal_wrapped (Some (JObject [(kd, JObject [(km, flat kvs)])]))
              = Some {| W.Data := {| W.Mids := Some (mapping kvs) |} |}).
  { unfold Unmarshal_wrapped, flat. simpl. rewrite members_cons.
    unfold Wrapped_member, fieldMatch. rewrite Hd, orb_true_r. simpl.
    rewrite members_cons. unfold Inner_member, fieldMatch.
    rewrite Hm, orb_true_r. simpl. rewrite members_flat. reflexivity. }
  unfold format2. rewrite E. simpl. rewrite Hl. reflexivity.
Qed.

Lemma extract_flat_None (raw : string) (kvs : list (string * string)) (coin : string) :
  lookup_coin (mapping kvs) coin = None ->
  exists keys, extract raw (Some (flat kvs)) coin = Err (ErrNotFound coin keys).
Proof.
  intros Hno. unfold extract.
  assert (H1 : format1 (Some (flat kvs)) coin = None).
  { unfold format1.
    replace (Unmarshal_directMids (Some (flat kvs))) with (Some (Some (mapping kvs)))
      by (symmetry; apply into_string_map_flat).
    rewrite Hno. by destruct (0 <? size (mapping kvs))%nat. }
  assert (H2 : format2 (Some (flat kvs)) coin = None).
  { unfold format2, flat. simpl.
    destruct (members_Wrapped_flat kvs zeroWrapped) as [-> | ->]; reflexivity. }
  assert (H3 : format3 (Some (flat kvs)) coin = None).
  { unfold format3, flat. simpl.
    destruct (members_AllMids_flat kvs zeroAllMidsResponse) as [-> | ->]; reflexivity. }
  rewrite H1, H2, H3. unfold flat. simpl. rewrite members_generic. simpl.
  by eexists.
Qed.

(** X7.  The case of the requested symbol does not matter when the payload
    has neither spelling as a key: two spellings equal up to case get the
    same price from a flat payload, or neither gets one. *)
Theorem request_case_is_immaterial (kvs : list (string * string)) (c1 c2 raw : string)
    (up : Upstream) (v : float64) :
  Strings.ToUpper c1 = Strings.ToUpper c2 ->
  mapping kvs !! c1 = None -> mapping kvs !! c2 = None ->
  GetPrice c1 (reply200 raw (Some (flat kvs)) :: up) = (Ok v, up) <->
  GetPrice c2 (reply200 raw (Some (flat kvs)) :: up) = (Ok v, up).
Proof.
  intros Hu H1 H2.
  assert (Hl : lookup_coin (mapping kvs) c1 = lookup_coin (mapping kvs) c2).
  { unfold lookup_coin. by rewrite H1, H2, Hu. }
  rewrite !GetPrice_reply200.
  destruct (lookup_coin (mapping kvs) c2) as [s|] eqn:E.
  - rewrite (extract_flat raw kvs c1 s Hl), (extract_flat raw kvs c2 s E).
    unfold parsed. destruct (ParseFloat s); split; intros H; by inversion H.
  - destruct (extract_flat_None raw kvs c1 Hl) as [k1 ->].
    destruct (extract_flat_None raw kvs c2 E) as [k2 ->].
    split; intros H; discriminate H.
Qed.

(** X8.  [getAvailableCoins] lists the keys of [Mids] and of [Data]: a
    symbol is listed when it is a key of either, as often as it is a key,
    so twice when it is in both; nil maps contribute nothing.  On the
    nested payload it lists the symbols, where the not-found error of
    [GetPrice] lists the field names. *)
Theorem getAvailableCoins_lists_symbols (response : AllMidsResponse) :
  Permutation (getAvailableCoins response)
    ((map_to_list (default ∅ (Mids response))).*1 ++
     (map_to_list (default ∅ (Data response))).*1) /\
  length (getAvailableCoins response)
    = (size (default ∅ (Mids response)) + size (default ∅ (Data response)))%nat /\
  (forall k, k ∈ getAvailableCoins response <->
             is_Some (default ∅ (Mids response) !! k) \/
             is_Some (default ∅ (Data response) !! k)) /\
  (forall mids data : list (string * string),
     Unmarshal_response (Some (nested_both mids data)) = Some response ->
     forall k, k ∈ getAvailableCoins response <->
               is_Some (mapping mids !! k) \/ is_Some (mapping data !! k)).
Proof.
  assert (HP : Permutation (getAvailableCoins response)
                 ((map_to_list (default ∅ (Mids response))).*1 ++
                  (map_to_list (default ∅ (Data response))).*1)).
  { unfold getAvailableCoins, range.
    apply Permutation_app.
    - destruct (Mids response); simpl; [apply Permutation_map, rangeOrder_perm|].
      by rewrite map_to_list_empty.
    - destruct (Data response); simpl; [apply Permutation_map, rangeOrder_perm|].
      by rewrite map_to_list_empty. }
  assert (Hin : forall k, k ∈ getAvailableCoins response <->
             is_Some (default ∅ (Mids response) !! k) \/
             is_Some (default ∅ (Data response) !! k)).
  { intros k. rewrite HP, elem_of_app, !list_elem_of_fmap.
    split.
    - intros [([k' x] & -> & H) | ([k' x] & -> & H)]; apply elem_of_map_to_list in H;
        [left | right]; by eexists.
    - intros [[x H] | [x H]]; [left | right]; exists (k, x);
        (split; [reflexivity | by apply elem_of_map_to_list]). }
  split; [exact HP|]. split; [|split; [exact Hin|]].
  - rewrite (Permutation_length HP), length_app, !length_fmap, !length_map_to_list.
    reflexivity.
  - intros mids data E k. rewrite Unmarshal_response_nested_both in E.
    injection E as <-. rewrite Hin. simpl. rewrite lookup_fmap, fmap_is_Some. reflexivity.
Qed.

End AdapterLookups.

Section AdapterMeta.
Context {RT : Runtime}.

Ltac decode_steps := repeat (rewrite ?members_cons, ?members_nil; simpl).

(** X18.  The field ["meta"] is decoded although no price is read from it:
    when it is present and is neither an object nor [null], the nested
    shape fails to decode as a whole, and a payload whose ["mids"] holds
    the symbol is answered with the not-found error naming the two
    fields. *)
Theorem bad_meta_discards_nested_payload (kvs : list (string * string)) (v : json)
    (raw coin : string) (up : Upstream) :
  v <> JNull -> (forall ms, v <> JObject ms) ->
  exists keys,
    GetPrice coin (reply200 raw (Some (JObject [("mids", flat kvs); ("meta", v)])) :: up)
    = (Err (ErrNotFound coin keys), up) /\
    Permutation keys ["mids"; "meta"].
Proof.
  intros Hn Ho. rewrite GetPrice_reply200. unfold extract.
  change (format1 (Some (JObject [("mids", flat kvs); ("meta", v)])) coin)
    with (@None result).
  change (format2 (Some (JObject [("mids", flat kvs); ("meta", v)])) coin)
    with (@None result).
  assert (H3 : format3 (Some (JObject [("mids", flat kvs); ("meta", v)])) coin = None).
  { unfold format3, flat. decode_steps. rewrite members_flat. decode_steps.
    destruct v as [| | | | |ms]; try reflexivity; [contradiction | by destruct (Ho ms)]. }
  rewrite H3. decode_steps.
  eexists. split; [reflexivity|]. unfold range.
  rewrite rangeOrder_perm, map_to_list_insert.
  - rewrite insert_empty, map_to_list_singleton. simpl. apply perm_swap.
  - rewrite lookup_insert_ne by done. apply lookup_empty.
Qed.

End AdapterMeta.

(** ** More on the store, the cycles and the handler *)

Section StoreEdges.
Context {RT : Runtime}.

Lemma issue_faults (st : Statement) (d : DB) :
  faults (issue st d).2 = tail (faults d) /\
  (issue st d).1 = default false (head (faults d)).
Proof. unfold issue. destruct (faults d); simpl; auto. Qed.

(** X9.  The handler never writes: whatever the symbol and however the
    store answers, the table and its key sequence are as before, and the
    statements issued are none (empty symbol), the count alone (when it
    fails) or the count and then the rows, both for the symbol and
    [now] minus 24 hours. *)
Theorem query_is_read_only (now : Time) (coin : string) (d : DB) :
  let d' := (GetPriceComparison now coin d).2 in
  let since := now - 24 * 3600 * 1000000000 in
  rows d' = rows d /\ nextID d' = nextID d /\
  exists sts, issued d' = issued d ++ sts /\
    (sts = [] \/ sts = [SELECT_count coin since] \/
     sts = [SELECT_count coin since; SELECT_rows coin since]).
Proof.
  assert (Hs : Add now (-24 * Hour) = now - 24 * 3600 * 1000000000)
    by (unfold Add, Hour, Second; lia).
  unfold GetPriceComparison, Count, Find_ordered. rewrite Hs.
  destruct (String.eqb coin "").
  { simpl. repeat split. exists []. rewrite app_nil_r. auto. }
  pose proof (issue_rows (SELECT_count coin (now - 24 * 3600 * 1000000000)) d) as (R1 & N1 & I1).
  destruct (issue _ d) as [f1 d1]. simpl in R1, N1, I1. destruct f1.
  { simpl. repeat split; try assumption. eexists. split; [exact I1 | auto]. }
  pose proof (issue_rows (SELECT_rows coin (now - 24 * 3600 * 1000000000)) d1) as (R2 & N2 & I2).
  destruct (issue _ d1) as [f2 d2]. simpl in R2, N2, I2.
  assert (I : issued d2 = issued d ++ [SELECT_count coin (now - 24 * 3600 * 1000000000);
                                        SELECT_rows coin (now - 24 * 3600 * 1000000000)]).
  { rewrite I2, I1, <- app_assoc. reflexivity. }
  destruct f2; simpl; (split; [by rewrite R2|]); (split; [by rewrite N2|]);
    eexists; (split; [exact I | auto]).
Qed.

(** X10.  When the store fails, the handler answers 500 with a fixed
    message that names the step and nothing of the store: the count, after
    which the rows are not asked for, or the rows. *)
Theorem store_failure_is_500 (now : Time) (coin : string) (d : DB) (fs : list bool) :
  coin <> "" ->
  (faults d = true :: fs ->
     (GetPriceComparison now coin d).1 = JSONError 500 "failed to count prices" /\
     length (issued (GetPriceComparison now coin d).2) = S (length (issued d))) /\
  (faults d = false :: true :: fs ->
     (GetPriceComparison now coin d).1 = JSONError 500 "failed to fetch prices").
Proof.
  intros Hc. unfold GetPriceComparison, Count, Find_ordered, issue.
  destruct (String.eqb_spec coin "") as [->|_]; [done|].
  split; intros ->; simpl; [|reflexivity].
  split; [reflexivity|]. rewrite length_app. simpl. lia.
Qed.

Lemma Delete_effect (now cutoff : Time) (d : DB) :
  exists (failed : bool) (n : Z) (d1 : DB),
    Delete_where_created_before now cutoff d = (failed, n, d1) /\
    issued d1 = issued d ++ [UPDATE_deleted_at cutoff] /\
    nextID d1 = nextID d /\ faults d1 = tail (faults d) /\
    if failed then rows d1 = rows d /\ n = 0
    else rows d1 = map (fun r => if old cutoff r then mark now r else r) (rows d) /\
         n = Z.of_nat (length (filter (fun r => old cutoff r = true) (rows d))).
Proof.
  unfold Delete_where_created_before.
  pose proof (issue_rows (UPDATE_deleted_at cutoff) d) as (R & N & I).
  pose proof (issue_faults (UPDATE_deleted_at cutoff) d) as (F & _).
  destruct (issue _ d) as [f d1]. simpl in *. destruct f.
  - exists true, 0, d1. repeat split; assumption.
  - eexists false, _, _. split; [reflexivity|]. simpl. rewrite R. repeat split; assumption.
Qed.

Lemma cleanup_effect (now : Time) (d : DB) :
  exists (failed : bool) (n : Z) (d1 : DB),
    cleanup now d =
      (d1, if failed then [LogCleanupStart; LogCleanupError]
           else [LogCleanupStart; LogCleanupDone n (AddDays now (-2))]) /\
    issued d1 = issued d ++ [UPDATE_deleted_at (AddDays now (-2))] /\
    nextID d1 = nextID d /\ faults d1 = tail (faults d) /\
    if failed then rows d1 = rows d
    else rows d1 = map (fun r => if old (AddDays now (-2)) r then mark now r else r) (rows d) /\
         n = Z.of_nat (length (filter (fun r => old (AddDays now (-2)) r = true) (rows d))).
Proof.
  unfold cleanup.
  destruct (Delete_effect now (AddDays now (-2)) d) as (f & n & d1 & E & I & N & F & H).
  rewrite E. exists f, n, d1. destruct f; [|by auto]. destruct H as [H _]. auto.
Qed.

(** X11.  A retention cycle whose statement fails logs the error and leaves
    the table as it was; one whose statement succeeds leaves no unmarked
    row created before the cutoff, and the number it reports is the
    number by which the unmarked rows went down. *)
Theorem cleanup_outcome (now : Time) (d : DB) :
  let d' := (cleanup now d).1 in
  let unmarked := fun rs : list CoinPrice => length (filter (fun r => DeletedAt r = None) rs) in
  ((cleanup now d).2 = [LogCleanupStart; LogCleanupError] /\ rows d' = rows d) \/
  (exists n, (cleanup now d).2
             = [LogCleanupStart; LogCleanupDone n (now - 2 * 24 * 3600 * 1000000000)] /\
     Forall (fun r => DeletedAt r = None -> now - 2 * 24 * 3600 * 1000000000 <= CreatedAt r)
            (rows d') /\
     Z.of_nat (unmarked (rows d)) = Z.of_nat (unmarked (rows d')) + n).
Proof.
  intros d' unmarked.
  assert (Hc : AddDays now (-2) = now - 2 * 24 * 3600 * 1000000000)
    by (unfold AddDays, Hour, Second; lia).
  rewrite <- Hc. clear Hc.
  destruct (cleanup_effect now d) as (f & n & d1 & E & _ & _ & _ & H).
  subst d'. rewrite E. simpl. destruct f; [by left|]. right.
  destruct H as [Hr ->]. eexists. split; [reflexivity|]. rewrite Hr. split.
  - apply Forall_forall. intros r' Hin. apply list_elem_of_fmap in Hin as (r & -> & _).
    destruct (old (AddDays now (-2)) r) eqn:Eo; [intros Hd; discriminate Hd|].
    intros Hd. destruct (Z.le_gt_cases (AddDays now (-2)) (CreatedAt r)) as [|Hlt]; [done|].
    assert (Ho : old (AddDays now (-2)) r = true) by (apply old_spec; split; [lia | done]).
    rewrite Eo in Ho. discriminate Ho.
  - unfold unmarked. generalize (AddDays now (-2)). intros c. clear.
    induction (rows d) as [|r rs IH]; [reflexivity|].
    cbn [map]. rewrite !filter_cons.
    destruct (old c r) eqn:Eo.
    + apply old_spec in Eo as [_ Hd].
      destruct (decide (DeletedAt r = None)); [|done].
      destruct (decide (DeletedAt (mark now r) = None)) as [Hm|_]; [discriminate Hm|].
      destruct (decide (true = true)); [|done]. cbn [length]. lia.
    + destruct (decide (false = true)) as [Hf|_]; [discriminate Hf|].
      destruct (decide (DeletedAt r = None)); cbn [length]; lia.
Qed.

End StoreEdges.

Section Compositions.
Context {RT : Runtime}.

Lemma healthy_S (n : nat) (d : DB) : healthy (S n) d -> healthy n d.
Proof.
  unfold healthy. generalize (faults d). induction n as [|n IH]; intros [|f fs] H;
    simpl in *; try constructor.
  - by inversion H.
  - apply IH. by inversion H.
Qed.

Lemma selected_after_mark (coin : string) (since cutoff now : Time) (rs : list CoinPrice) :
  cutoff <= since ->
  filter (fun r => selected coin since r = true)
         (map (fun r => if old cutoff r then mark now r else r) rs)
  = filter (fun r => selected coin since r = true) rs.
Proof.
  intros Hle. induction rs as [|r rs IH]; [reflexivity|].
  cbn [map]. rewrite !filter_cons, IH.
  destruct (old cutoff r) eqn:Eo; [|reflexivity].
  apply old_spec in Eo as [Hc _].
  assert (H1 : selected coin since (mark now r) = false).
  { unfold selected, live, mark. simpl. apply andb_false_r. }
  assert (H2 : selected coin since r = false).
  { destruct (selected coin since r) eqn:Es; [|reflexivity].
    apply selected_spec in Es as (_ & Hs & _). lia. }
  rewrite H1, H2. reflexivity.
Qed.

(** X12.  A retention cycle does not change what the handler answers: the
    rows it marks are at least two days old and the handler looks back one
    day, so a query at [now] gets the same response before and after a
    cycle run at any time up to a day after [now]. *)
Theorem retention_keeps_the_answers (now now' : Time) (coin : string) (d : DB) :
  healthy 3 d -> now' <= now + 24 * Hour ->
  (GetPriceComparison now coin (cleanup now' d).1).1 = (GetPriceComparison now coin d).1.
Proof.
  intros Hh Hle. unfold GetPriceComparison.
  destruct (String.eqb coin ""); [reflexivity|].
  unfold cleanup.
  destruct (Delete_healthy 2 now' (AddDays now' (-2)) d Hh) as (d1 & -> & Hr & Hh1).
  simpl fst.
  destruct (Count_healthy 1 coin (Add now (-24 * Hour)) d1 Hh1) as (d2 & -> & Hr2 & Hh2).
  destruct (Find_healthy 0 coin (Add now (-24 * Hour)) d2 Hh2) as (d3 & -> & _ & _).
  destruct (Count_healthy 1 coin (Add now (-24 * Hour)) d (healthy_S 2 d Hh))
    as (e2 & -> & Er2 & Eh2).
  destruct (Find_healthy 0 coin (Add now (-24 * Hour)) e2 Eh2) as (e3 & -> & _ & _).
  rewrite Hr2, Er2, Hr, selected_after_mark; [reflexivity|].
  unfold AddDays, Add. lia.
Qed.

Lemma fetchPrices_rows (pf : PriceFetcher) (now : Time) (w : World) :
  exists new : list CoinPrice,
    rows (db (fetchPrices pf now w)) = rows (db w) ++ new /\
    map (fun r => (Coin r, Price r)) new
      = written (fetched (coins pf) (upstream w)) (faults (db w)) /\
    Forall (fun r => CreatedAt r = now /\ UpdatedAt r = now /\ DeletedAt r = None) new /\
    upstream (fetchPrices pf now w) = drop (length (coins pf)) (upstream w).
Proof.
  unfold fetchPrices.
  destruct (fetch_loop now (coins pf)
              {| upstream := upstream w; db := db w; log := log w ++ [LogFetchStart] |})
    as (new & lines & Hr & Hm & Hf & Hu & _ & _).
  exists new. simpl in *. auto.
Qed.

(** X13.  What a fetch cycle has written is served: after a cycle at
    [now], a query for a symbol it has inserted, made up to 24 hours
    later with a store that answers, is a 200 response whose list holds a
    row of that symbol with the price fetched and the time [now]. *)
Theorem fetched_price_is_served (pf : PriceFetcher) (now t : Time) (w : World)
    (c : string) (p : float64) :
  (c, p) ∈ written (fetched (coins pf) (upstream w)) (faults (db w)) ->
  c <> "" -> t <= now + 24 * Hour ->
  healthy 2 (db (fetchPrices pf now w)) ->
  exists resp d',
    GetPriceComparison t c (db (fetchPrices pf now w)) = (JSON 200 resp, d') /\
    {| pCoin := c; pPrice := p; pCreatedAt := now |} ∈ Prices resp.
Proof.
  intros Hin Hc Ht Hh.
  destruct (fetchPrices_rows pf now w) as (new & Hr & Hm & Hf & _).
  rewrite <- Hm in Hin. apply list_elem_of_fmap in Hin as (r & Hcp & Hin).
  injection Hcp as Hcoin Hprice.
  rewrite Forall_forall in Hf. destruct (Hf r Hin) as (Hcr & _ & Hdel).
  unfold GetPriceComparison.
  destruct (String.eqb_spec c "") as [->|_]; [done|].
  destruct (Count_healthy 1 c (Add t (-24 * Hour)) _ Hh) as (d1 & -> & Hr1 & Hh1).
  destruct (Find_healthy 0 c (Add t (-24 * Hour)) d1 Hh1) as (d2 & -> & _ & _).
  eexists _, d2. split; [reflexivity|]. simpl.
  apply list_elem_of_fmap. exists r. split.
  - unfold toResponse. by rewrite Hcoin, Hprice, Hcr.
  - rewrite (order_desc_perm _). apply list_elem_of_filter. split.
    + apply selected_spec. repeat split; [done | | done].
      rewrite Hcr. unfold Add. lia.
    + rewrite Hr1, Hr. apply elem_of_app. by right.
Qed.

End Compositions.

Section Invariants.
Context {RT : Runtime}.

Lemma keyed_Create (now : Time) (coin : string) (price : float64) (d : DB) :
  keyed d -> keyed (Create now coin price d).2.
Proof.
  intros [Hlt Hnd]. pose proof (Create_effect now coin price d) as H. simpl in H.
  destruct (faults d) as [|[] fs]; rewrite H; unfold keyed; simpl; try (split; assumption).
  all: split.
  all: try (apply Forall_app; split;
            [eapply Forall_impl; [exact Hlt|]; simpl; intros; lia
            | constructor; [simpl; lia | constructor]]).
  all: rewrite map_app; simpl; apply NoDup_app; split; [exact Hnd|];
       split; [|apply NoDup_singleton].
  all: intros i Hi Hi'; apply list_elem_of_singleton in Hi'; subst i;
       apply list_elem_of_fmap in Hi as (r & E & Hr);
       rewrite Forall_forall in Hlt; specialize (Hlt r Hr); lia.
Qed.

Lemma keyed_fetchOne (now : Time) (w : World) (coin : string) :
  keyed (db w) -> keyed (db (fetchOne now w coin)).
Proof.
  intros H. unfold fetchOne. destruct (GetPrice coin (upstream w)) as [[price|e] up]; [|exact H].
  pose proof (keyed_Create now coin price (db w) H) as Hk.
  destruct (Create now coin price (db w)) as [[] d']; exact Hk.
Qed.

(** X14.  The cycles keep the key of the table a key: when the key
    sequence is ahead of every row and no two rows share a key, the same
    holds after a fetch cycle and after a retention cycle, whatever the
    upstream and the store do. *)
Theorem cycles_keep_keys_unique (pf : PriceFetcher) (now : Time) (w : World) :
  keyed (db w) ->
  keyed (db (fetchPrices pf now w)) /\ keyed (cleanup now (db w)).1.
Proof.
  intros H. split.
  - unfold fetchPrices. simpl.
    assert (G : forall cs w0, keyed (db w0) -> keyed (db (foldl (fetchOne now) w0 cs))).
    { induction cs as [|c cs IH]; intros w0 H0; [exact H0|].
      simpl. apply IH, keyed_fetchOne, H0. }
    by apply G.
  - destruct (cleanup_effect now (db w)) as (f & n & d1 & E & _ & N & _ & Hr).
    rewrite E. simpl. destruct H as [Hlt Hnd]. unfold keyed. rewrite N.
    destruct f; [by rewrite Hr|]. destruct Hr as [-> _]. split.
    + apply Forall_forall. intros r' Hin. apply list_elem_of_fmap in Hin as (r & -> & Hin).
      rewrite Forall_forall in Hlt. specialize (Hlt r Hin). by destruct (old _ r).
    + rewrite map_map.
      erewrite map_ext; [exact Hnd|]. intros r. by destruct (old _ r).
Qed.

(** X15.  A fetch cycle that gets no usable reply (each request fails, or
    is answered with a status other than 200) does not reach the store: no
    statement is issued and the store is the one the cycle was given; the
    log has a line for every symbol. *)
Theorem failed_fetches_leave_the_store (pf : PriceFetcher) (now : Time) (w : World) :
  Forall unusable (upstream w) ->
  db (fetchPrices pf now w) = db w /\
  length (log (fetchPrices pf now w)) = (length (log w) + 2 + length (coins pf))%nat.
Proof.
  intros Hu. unfold fetchPrices. simpl.
  assert (G : forall cs w0, Forall unusable (upstream w0) ->
                db (foldl (fetchOne now) w0 cs) = db w0 /\
                length (log (foldl (fetchOne now) w0 cs)) = (length (log w0) + length cs)%nat).
  { induction cs as [|c cs IH]; intros w0 H0; simpl; [split; [reflexivity | lia]|].
    assert (E : exists e, fetchOne now w0 c =
                  {| upstream := (Do (upstream w0)).2; db := db w0;
                     log := log w0 ++ [LogFetchError c e] |}).
    { unfold fetchOne, GetPrice, GetPrice_on. destruct (upstream w0) as [|[|resp] up]; simpl.
      - by eexists.
      - by eexists.
      - inversion H0 as [|? ? Hr _]; subst. simpl in Hr.
        destruct (Z.eqb_spec (StatusCode resp) StatusOK) as [E|_]; [contradiction|].
        by eexists. }
    destruct E as [e ->].
    destruct (IH {| upstream := (Do (upstream w0)).2; db := db w0;
                    log := log w0 ++ [LogFetchError c e] |}) as [-> ->].
    - simpl. destruct (upstream w0); simpl; [constructor | by inversion H0].
    - simpl. rewrite length_app. simpl. split; [reflexivity | lia]. }
  destruct (G (coins pf) {| upstream := upstream w; db := db w;
                            log := log w ++ [LogFetchStart] |} Hu) as [-> Hl].
  split; [reflexivity|]. rewrite length_app, Hl. simpl. rewrite length_app. simpl. lia.
Qed.

Lemma PriceFetcher_Start_effect (pf : PriceFetcher) (events : list Select) (w : World) :
  upstream (PriceFetcher_Start pf events w).1
    = drop (length (coins pf) * ticks events) (upstream w) /\
  exists new, rows (db (PriceFetcher_Start pf events w).1) = rows (db w) ++ new.
Proof.
  revert w. induction events as [|[|now] events IH]; intros w; simpl.
  - rewrite Nat.mul_0_r. split; [reflexivity|]. exists []. by rewrite app_nil_r.
  - rewrite Nat.mul_0_r. split; [reflexivity|]. exists []. by rewrite app_nil_r.
  - destruct (IH (fetchPrices pf now w)) as [Hu [new Hr]].
    destruct (fetchPrices_rows pf now w) as (new0 & Hr0 & _ & _ & Hu0).
    rewrite Hu, Hu0, Hr, Hr0, drop_drop. split.
    + f_equal. lia.
    + exists (new0 ++ new). by rewrite app_assoc.
Qed.

(** X16.  The fetch loop takes one reply per symbol for each tick it
    receives before the cancellation and none after it; it only ever adds
    rows after the ones that were there; it has returned exactly when the
    cancellation was among the events, and what follows the cancellation
    does not matter. *)
Theorem fetch_loop_until_cancelled (pf : PriceFetcher) (events : list Select) (w : World) :
  upstream (PriceFetcher_Start pf events w).1
    = drop (length (coins pf) * ticks events) (upstream w) /\
  (exists new, rows (db (PriceFetcher_Start pf events w).1) = rows (db w) ++ new) /\
  ((PriceFetcher_Start pf events w).2 = true <-> CtxDone ∈ events) /\
  (forall rest, PriceFetcher_Start pf (events ++ CtxDone :: rest) w
                = PriceFetcher_Start pf (events ++ [CtxDone]) w).
Proof.
  destruct (PriceFetcher_Start_effect pf events w) as [Hu Hr].
  split; [exact Hu|]. split; [exact Hr|]. split.
  - clear Hu Hr. revert w. induction events as [|[|now] events IH]; intros w; simpl.
    + split; [discriminate | intros H; by apply elem_of_nil in H].
    + split; [intros _; left | reflexivity].
    + rewrite IH. split; [intros H; by right|].
      intros H. apply elem_of_cons in H as [H|H]; [discriminate H | exact H].
  - intros rest. clear Hu Hr. revert w.
    induction events as [|[|now] events IH]; intros w; simpl;
      [reflexivity | reflexivity | apply IH].
Qed.

Lemma CleanupWorker_loop_effect (events : list Select) (d : DB) (lg : list LogLine) :
  let d' := (CleanupWorker_loop events d lg).1.1 in
  map observation (rows d') = map observation (rows d) /\
  nextID d' = nextID d /\
  length (issued d') = (length (issued d) + ticks events)%nat /\
  (forall i r r', rows d !! i = Some r -> rows d' !! i = Some r' ->
                  DeletedAt r <> None -> DeletedAt r' = DeletedAt r).
Proof.
  revert d lg. induction events as [|[|now] events IH]; intros d lg; simpl.
  - repeat split; [lia | congruence].
  - repeat split; [lia | congruence].
  - destruct (cleanup_effect now d) as (f & n & d1 & E & I & N & _ & Hr).
    rewrite E. destruct (IH d1 (lg ++ (if f then [LogCleanupStart; LogCleanupError]
                                       else [LogCleanupStart;
                                             LogCleanupDone n (AddDays now (-2))])))
      as (Ho & Hn & Hi & Hd).
    assert (Hobs : map observation (rows d1) = map observation (rows d)).
    { destruct f; [by rewrite Hr|]. destruct Hr as [-> _]. rewrite map_map.
      apply map_ext. intros r. by destruct (old _ r). }
    split; [by rewrite Ho|]. split; [by rewrite Hn|]. split.
    + rewrite Hi, I, length_app. simpl. lia.
    + intros i r r' Hi0 Hi' Hdel.
      assert (H1 : rows d1 !! i = Some r).
      { destruct f; [by rewrite Hr|]. destruct Hr as [-> _].
        rewrite list_lookup_fmap, Hi0. simpl.
        destruct (old (AddDays now (-2)) r) eqn:Eo; [|reflexivity].
        apply old_spec in Eo as [_ Eo]. contradiction. }
      exact (Hd i r r' H1 Hi' Hdel).
Qed.

(** X17.  The retention loop runs one cycle at once, even when it is
    cancelled before the first tick, and one more for each tick received
    before the cancellation.  It never adds or removes a row, never
    changes a key, coin, price or timestamp of creation or update, never
    takes a deletion marker away or replaces one, and never moves the key
    sequence. *)
Theorem retention_loop_keeps_observations (now : Time) (events : list Select) (d : DB) :
  let d' := (CleanupWorker_Start now events d).1.1 in
  map observation (rows d') = map observation (rows d) /\
  nextID d' = nextID d /\
  length (issued d') = (length (issued d) + 1 + ticks events)%nat /\
  (forall i r r', rows d !! i = Some r -> rows d' !! i = Some r' ->
                  DeletedAt r <> None -> DeletedAt r' = DeletedAt r).
Proof.
  unfold CleanupWorker_Start.
  destruct (cleanup_effect now d) as (f & n & d1 & E & I & N & _ & Hr). rewrite E.
  destruct (CleanupWorker_loop_effect events d1
              (if f then [LogCleanupStart; LogCleanupError]
               else [LogCleanupStart; LogCleanupDone n (AddDays now (-2))]))
    as (Ho & Hn & Hi & Hd).
  assert (Hobs : map observation (rows d1) = map observation (rows d)).
  { destruct f; [by rewrite Hr|]. destruct Hr as [-> _]. rewrite map_map.
    apply map_ext. intros r. by destruct (old _ r). }
  split; [by rewrite Ho|]. split; [by rewrite Hn|]. split.
  - rewrite Hi, I, length_app. simpl. lia.
  - intros i r r' Hi0 Hi' Hdel.
    assert (H1 : rows d1 !! i = Some r).
    { destruct f; [by rewrite Hr|]. destruct Hr as [-> _].
      rewrite list_lookup_fmap, Hi0. simpl.
      destruct (old (AddDays now (-2)) r) eqn:Eo; [|reflexivity].
      apply old_spec in Eo as [_ Eo]. contradiction. }
    exact (Hd i r r' H1 Hi' Hdel).
Qed.

End Invariants.

(** ** Instances *)

Section Instances.
#[local] Existing Instance Exact.runtime.

Lemma query_last_24h_witness :
  exists prices d',
    GetPriceComparison (RT := Exact.runtime) Samples.now0 "ETH" Samples.store =
      (JSON 200 {| rCoin := "ETH"; Prices := map toResponse prices;
                   Count_ := Z.of_nat (length prices) |}, d') /\
    Permutation prices
      (filter (fun r => Coin r = "ETH" /\
                        Samples.now0 - 24 * 3600 * 1000000000 <= CreatedAt r /\
                        DeletedAt r = None) (rows Samples.store)) /\
    StronglySorted newer_first prices /\
    rows d' = rows Samples.store /\
    ((forall r, r ∈ rows Samples.store ->
        ~ (Coin r = "ETH" /\ Samples.now0 - 24 * 3600 * 1000000000 <= CreatedAt r /\
           DeletedAt r = None)) -> prices = []).
Proof.
  apply (query_last_24h (RT := Exact.runtime) Samples.now0 "ETH" Samples.store).
  - discriminate.
  - constructor.
Defined.

Lemma count_is_number_of_prices_witness :
  Count_ (RT := Exact.runtime)
    {| rCoin := "ETH";
       Prices := [ {| pCoin := "ETH"; pPrice := Samples.price 3100; pCreatedAt := Samples.ago 1 |} ];
       Count_ := 1 |} = 1.
Proof.
  apply (count_is_number_of_prices (RT := Exact.runtime) Samples.now0 "ETH" Samples.store
           {| rows := Samples.table; nextID := 6; faults := [];
              issued := [SELECT_count "ETH" (Samples.ago 24); SELECT_rows "ETH" (Samples.ago 24)] |}).
  vm_compute. reflexivity.
Defined.

Lemma cleanup_soft_deletes_old_rows_witness :
  exists (d' : DB) (n : Z),
    cleanup (RT := Exact.runtime) Samples.now0 Samples.store =
      (d', [LogCleanupStart; LogCleanupDone n (Samples.now0 - 2 * 24 * 3600 * 1000000000)]) /\
    n = 1.
Proof.
  destruct (cleanup_soft_deletes_old_rows (RT := Exact.runtime) Samples.now0 Samples.store)
    as (d' & n & E & _ & Hn & _).
  - constructor.
  - exists d', n. split; [exact E|]. rewrite Hn. reflexivity.
Defined.

Lemma cleanup_twice_witness :
  exists (d1 : DB) (n : Z) (d2 : DB),
    cleanup (RT := Exact.runtime) Samples.now0 Samples.store =
      (d1, [LogCleanupStart; LogCleanupDone n (AddDays Samples.now0 (-2))]) /\
    cleanup (Samples.now0 + Hour) d1 =
      (d2, [LogCleanupStart; LogCleanupDone 0 (AddDays (Samples.now0 + Hour) (-2))]) /\
    rows d2 = rows d1.
Proof.
  apply (cleanup_twice (RT := Exact.runtime) Samples.now0 (Samples.now0 + Hour) Samples.store).
  - constructor.
  - intros r Hin Hlive.
    repeat (apply elem_of_cons in Hin as [-> | Hin]).
    all: try (by apply elem_of_nil in Hin).
    all: try (simpl in Hlive; discriminate).
    all: unfold AddDays, Samples.now0, Samples.ago, Samples.now0, Hour, Second; simpl CreatedAt.
    all: lia.
Defined.



Lemma lookup_exact_then_case_insensitive_witness :
  GetPrice (RT := Exact.runtime) "BTC"
    [reply200 Samples.body_lower (Some (flat [("btc", Samples.btc); ("ETH", "3000")]))]
    = (Ok Samples.btc_price, []) /\
  GetPrice (RT := Exact.runtime) "eth"
    [reply200 Samples.body_lower (Some (flat [("btc", Samples.btc); ("ETH", "3000")]))]
    = (Ok (Samples.price 3000), []).
Proof.
  destruct (lookup_exact_then_case_insensitive (RT := Exact.runtime)
              [("btc", Samples.btc); ("ETH", "3000")] Samples.body_lower []) as (Hany & Hbtc).
  assert (Hkeys : forall k, is_Some (mapping [("btc", Samples.btc); ("ETH", "3000")] !! k) ->
                            k = "btc" \/ k = "ETH").
  { intros k Hk. unfold mapping in Hk. simpl in Hk.
    destruct (decide (k = "ETH")) as [->|H1]; [by right|].
    destruct (decide (k = "btc")) as [->|H2]; [by left|].
    rewrite !lookup_insert_ne, lookup_empty in Hk by done. by destruct Hk. }
  assert (Hl : mapping [("btc", Samples.btc); ("ETH", "3000")] !! "btc" = Some Samples.btc)
    by (vm_compute; reflexivity).
  assert (Hn : mapping [("btc", Samples.btc); ("ETH", "3000")] !! "eth" = None)
    by (vm_compute; reflexivity).
  assert (He : mapping [("btc", Samples.btc); ("ETH", "3000")] !! "ETH" = Some "3000")
    by (vm_compute; reflexivity).
  split.
  - destruct (Hbtc Samples.btc Hl) as (s' & _ & E & Hs').
    rewrite E, Hs'; [reflexivity|].
    intros k Hk Hu. destruct (Hkeys k Hk) as [-> | ->]; [reflexivity|].
    vm_compute in Hu. discriminate Hu.
  - destruct (Hany "eth") as ((s & Hf & E & _) & _).
    + exists "ETH". split; [exact (mk_is_Some _ _ He) | reflexivity].
    + rewrite E. unfold found in Hf. rewrite Hn in Hf.
      destruct Hf as (k & Hk & Hu).
      destruct (Hkeys k (mk_is_Some _ _ Hk)) as [-> | ->].
      * vm_compute in Hu. discriminate Hu.
      * rewrite He in Hk. injection Hk as <-. reflexivity.
Defined.

Lemma non_200_status_is_error_witness :
  GetPrice (RT := Exact.runtime) "BTC" [Reply Samples.unavailable]
    = (Err (ErrStatus 503 "Service Unavailable"), []).
Proof.
  apply (non_200_status_is_error (RT := Exact.runtime) Samples.unavailable "BTC" []). simpl. lia.
Defined.

(** No bound on the body carried by the status error: it is the body as
    read, however long. *)
Lemma status_error_body_is_not_truncated :
  ~ (exists limit : nat, forall (resp : Response) (coin : string),
       ~ (200 <= StatusCode resp < 300) ->
       exists body, GetPrice_on (RT := Exact.runtime) (Reply resp) coin = Err (ErrStatus (StatusCode resp) body) /\
                    (String.length body <= limit)%nat).
Proof.
  intros [limit H].
  destruct (H {| StatusCode := 500; Body := bytes (S limit) "x"; ReadErr := false; Doc := None |}
              "BTC") as (body & E & Hlen); [simpl; lia|].
  simpl in E. injection E as <-. simpl in Hlen. rewrite length_bytes in Hlen. lia.
Qed.

(** The sample table at [now0]: of the four ETH rows, the one an hour old
    is returned; the others are 25 and 50 hours old or marked deleted. *)
Example query_sample :
  (GetPriceComparison Samples.now0 "ETH" Samples.store).1 =
  JSON 200 {| rCoin := "ETH";
              Prices := [ {| pCoin := "ETH"; pPrice := Samples.price 3100;
                             pCreatedAt := Samples.ago 1 |} ];
              Count_ := 1 |}.
Proof. vm_compute. reflexivity. Qed.

(** The sample table after a retention cycle at [now0]: the row 50 hours
    old is marked, and only that one. *)
Example cleanup_sample :
  map DeletedAt (rows (cleanup Samples.now0 Samples.store).1) =
  [Some Samples.now0; None; Some (Samples.ago 2); None; None] /\
  (cleanup Samples.now0 Samples.store).2 =
  [LogCleanupStart; LogCleanupDone 1 (Samples.ago 48)].
Proof. split; vm_compute; reflexivity. Qed.

(** A top-level ["mids"] with the key ["btc"] is used before the records
    under ["data"], whatever they hold for ["BTC"]. *)
Example mids_before_data :
  GetPrice (RT := Exact.runtime) "BTC"
    [reply200 Samples.body_both (Some (nested_both [("btc", "1")] [("BTC", Samples.btc)]))]
  = (Ok (Samples.price 1), []).
Proof. vm_compute. reflexivity. Qed.

(** A fetch cycle in which the reply for ETH is a 503 and the write for SOL
    fails: BTC, ARB and AVAX are inserted. *)
Example fetch_sample :
  let ok := reply200 Samples.body_five (Some (flat Samples.five)) in
  let w := {| upstream := [ok; Reply Samples.unavailable; ok; ok; ok];
              db := {| rows := []; nextID := 1; faults := [false; true]; issued := [] |};
              log := [] |} in
  map (fun r => (ID r, Coin r, Price r, CreatedAt r))
      (rows (db (fetchPrices NewPriceFetcher Samples.now0 w)))
  = [(1%N, "BTC", Samples.price 1, Samples.now0);
     (2%N, "ARB", Samples.price 4, Samples.now0);
     (3%N, "AVAX", Samples.price 5, Samples.now0)].
Proof. vm_compute. reflexivity. Qed.


Lemma price_only_from_object_witness :
  exists resp ms,
    [reply200 Samples.body_flat (Some (flat [("BTC", Samples.btc)]))] = [Reply resp] /\
    StatusCode resp = 200 /\ ReadErr resp = false /\ Doc resp = Some (JObject ms).
Proof.
  apply (price_only_from_object (RT := Exact.runtime) "BTC" _ [] Samples.btc_price).
  vm_compute. reflexivity.
Defined.

Lemma one_number_spoils_flat_payload_witness :
  exists keys,
    GetPrice (RT := Exact.runtime) "BTC"
      [reply200 Samples.body_spoiled (Some (JObject Samples.spoiled))]
    = (Err (ErrNotFound "BTC" keys), []) /\
    Permutation keys (map_to_list (mapping Samples.spoiled)).*1.
Proof.
  apply (one_number_spoils_flat_payload (RT := Exact.runtime) Samples.spoiled
           Samples.body_spoiled "BTC" []).
  - repeat constructor.
  - right. left. reflexivity.
Defined.

Lemma parse_failure_is_final_witness :
  GetPrice (RT := Exact.runtime) "BTC"
    [reply200 Samples.body_bad (Some (flat [("BTC", "n/a")]))]
  = (Err (ErrParsePrice "BTC" "n/a"), []).
Proof.
  destruct (parse_failure_is_final (RT := Exact.runtime) [("BTC", "n/a")]
              [("BTC", Samples.btc)] "BTC" "n/a" Samples.body_bad []) as (H & _).
  - vm_compute. reflexivity.
  - reflexivity.
  - exact H.
Defined.

Lemma last_duplicate_wins_witness :
  GetPrice (RT := Exact.runtime) "BTC"
    [reply200 Samples.body_twice
       (Some (flat ([("BTC", "1")] ++ ("BTC", Samples.btc) :: [("ETH", "2")])))]
  = (Ok Samples.btc_price, []).
Proof.
  apply (last_duplicate_wins (RT := Exact.runtime) [("BTC", "1")] [("ETH", "2")]
           "BTC" Samples.btc Samples.body_twice []).
  intros kv H. apply list_elem_of_singleton in H. subst kv. simpl. intros E. discriminate E.
Defined.

Lemma wrapped_fields_up_to_case_witness :
  GetPrice (RT := Exact.runtime) "BTC"
    [reply200 Samples.body_upper
       (Some (JObject [("DATA", JObject [("Mids", flat [("BTC", Samples.btc)])])]))]
  = (Ok Samples.btc_price, []).
Proof.
  apply (wrapped_fields_up_to_case (RT := Exact.runtime) "DATA" "Mids"
           [("BTC", Samples.btc)] "BTC" Samples.btc Samples.body_upper []).
  - reflexivity.
  - reflexivity.
  - vm_compute. reflexivity.
Defined.

Lemma request_case_is_immaterial_witness :
  GetPrice (RT := Exact.runtime) "BTC"
    [reply200 Samples.body_mixed (Some (flat [("Btc", Samples.btc)]))]
    = (Ok Samples.btc_price, []) <->
  GetPrice (RT := Exact.runtime) "btc"
    [reply200 Samples.body_mixed (Some (flat [("Btc", Samples.btc)]))]
    = (Ok Samples.btc_price, []).
Proof.
  apply (request_case_is_immaterial (RT := Exact.runtime) [("Btc", Samples.btc)]
           "BTC" "btc" Samples.body_mixed [] Samples.btc_price).
  - reflexivity.
  - vm_compute. reflexivity.
  - vm_compute. reflexivity.
Defined.

Lemma store_failure_is_500_witness :
  (GetPriceComparison (RT := Exact.runtime) Samples.now0 "ETH" Samples.failing).1
  = JSONError 500 "failed to count prices".
Proof.
  destruct (store_failure_is_500 (RT := Exact.runtime) Samples.now0 "ETH" Samples.failing [])
    as [H _].
  - intros E. discriminate E.
  - apply H. reflexivity.
Defined.

Lemma retention_keeps_the_answers_witness :
  (GetPriceComparison (RT := Exact.runtime) Samples.now0 "ETH"
     (cleanup (Samples.now0 + Hour) Samples.store).1).1
  = (GetPriceComparison Samples.now0 "ETH" Samples.store).1.
Proof.
  apply (retention_keeps_the_answers (RT := Exact.runtime) Samples.now0
           (Samples.now0 + Hour) "ETH" Samples.store).
  - constructor.
  - unfold Hour, Second. lia.
Defined.

Lemma fetched_price_is_served_witness :
  exists resp d',
    GetPriceComparison (RT := Exact.runtime) (Samples.now0 + Hour) "BTC"
      (db (fetchPrices NewPriceFetcher Samples.now0 Samples.world)) = (JSON 200 resp, d') /\
    {| pCoin := "BTC"; pPrice := Samples.price 1; pCreatedAt := Samples.now0 |}
      ∈ Prices resp.
Proof.
  apply (fetched_price_is_served (RT := Exact.runtime) NewPriceFetcher Samples.now0
           (Samples.now0 + Hour) Samples.world "BTC" (Samples.price 1)).
  - vm_compute. left.
  - intros E. discriminate E.
  - unfold Hour, Second. lia.
  - vm_compute. constructor.
Defined.

Lemma cycles_keep_keys_unique_witness :
  keyed (RT := Exact.runtime) (db (fetchPrices NewPriceFetcher Samples.now0 Samples.world)) /\
  keyed (cleanup Samples.now0 (db Samples.world)).1.
Proof.
  apply (cycles_keep_keys_unique (RT := Exact.runtime) NewPriceFetcher Samples.now0
           Samples.world).
  split; constructor.
Defined.

Lemma failed_fetches_leave_the_store_witness :
  db (fetchPrices (RT := Exact.runtime) NewPriceFetcher Samples.now0 Samples.world_down)
    = db Samples.world_down /\
  length (log (fetchPrices NewPriceFetcher Samples.now0 Samples.world_down)) = 7%nat.
Proof.
  apply (failed_fetches_leave_the_store (RT := Exact.runtime) NewPriceFetcher Samples.now0
           Samples.world_down).
  constructor; [exact I|]. constructor; [|constructor]. simpl. lia.
Defined.


Lemma bad_meta_discards_nested_payload_witness :
  exists keys,
    GetPrice (RT := Exact.runtime) "BTC"
      [reply200 Samples.body_meta
         (Some (JObject [("mids", flat [("BTC", Samples.btc)]); ("meta", JNumber (Some 5))]))]
    = (Err (ErrNotFound "BTC" keys), []) /\
    Permutation keys ["mids"; "meta"].
Proof.
  apply (bad_meta_discards_nested_payload (RT := Exact.runtime) [("BTC", Samples.btc)]
           (JNumber (Some 5)) Samples.body_meta "BTC" []).
  - intros E. discriminate E.
  - intros ms E. discriminate E.
Defined.

(** A row that comes of age between two cycles: with one unmarked row 47
    and a half hours old, the cycle at [now0] reports zero and the cycle
    an hour later, with no write in between, marks the row and reports
    one. *)
Lemma cleanup_second_run_deletes :
  healthy 2 Samples.aging /\
  (cleanup Samples.now0 Samples.aging).2
    = [LogCleanupStart; LogCleanupDone 0 (AddDays Samples.now0 (-2))] /\
  (cleanup (Samples.now0 + Hour) (cleanup Samples.now0 Samples.aging).1).2
    = [LogCleanupStart; LogCleanupDone 1 (AddDays (Samples.now0 + Hour) (-2))] /\
  map DeletedAt (rows (cleanup Samples.now0 Samples.aging).1) = [None] /\
  map DeletedAt (rows (cleanup (Samples.now0 + Hour) (cleanup Samples.now0 Samples.aging).1).1)
    = [Some (Samples.now0 + Hour)] /\
  ~ (forall (now now' : Time) (d : DB), healthy 2 d -> now <= now' ->
       (cleanup now' (cleanup now d).1).2
       = [LogCleanupStart; LogCleanupDone 0 (AddDays now' (-2))]).
Proof.
  split; [constructor|].
  split; [vm_compute; reflexivity|].
  assert (E : (cleanup (Samples.now0 + Hour) (cleanup Samples.now0 Samples.aging).1).2
              = [LogCleanupStart; LogCleanupDone 1 (AddDays (Samples.now0 + Hour) (-2))])
    by (vm_compute; reflexivity).
  split; [exact E|].
  split; [vm_compute; reflexivity|].
  split; [vm_compute; reflexivity|].
  intros H.
  specialize (H Samples.now0 (Samples.now0 + Hour) Samples.aging).
  rewrite E in H.
  assert (H0 : [LogCleanupStart (RT := Exact.runtime);
                LogCleanupDone 1 (AddDays (Samples.now0 + Hour) (-2))]
               = [LogCleanupStart; LogCleanupDone 0 (AddDays (Samples.now0 + Hour) (-2))]).
  { apply H; [constructor | unfold Hour, Second; lia]. }
  injection H0 as H0. discriminate H0.
Qed.

End Instances.
